(** * MD_HX711: a shallow embedding of the HX711 driver

    The development follows [src/MD_HX711.h] and [src/MD_HX711.cpp]:
    machine integers are [Z] with the wrap-around written out, the
    Arduino primitives ([digitalWrite], [digitalRead], [delayMicroseconds],
    [attachInterrupt], ...) append to a trace of hardware events, and every
    method of the class is a function on the instance record, the static
    registry and the hardware world. *)

From Equations Require Import Equations.
From stdpp Require Import base list gmap.
From Stdlib Require Import ZArith Lia Bool.
From Stdlib Require Import Floats.SpecFloat.

Local Open Scope Z_scope.

(** ** Machine integers *)

Module Machine.

Definition to_unsigned (bits z : Z) : Z := z mod 2 ^ bits.

Definition to_signed (bits z : Z) : Z :=
  (z + 2 ^ (bits - 1)) mod 2 ^ bits - 2 ^ (bits - 1).

Definition to_uint8 : Z -> Z := to_unsigned 8.
Definition to_int8 : Z -> Z := to_signed 8.
Definition to_uint32 : Z -> Z := to_unsigned 32.
Definition to_int32 : Z -> Z := to_signed 32.

Definition UINT8_MAX : Z := 255.
Definition INT32_MIN : Z := - 2 ^ 31.
Definition INT32_MAX : Z := 2 ^ 31 - 1.

Definition is_int32 (z : Z) : Prop := INT32_MIN <= z <= INT32_MAX.

(** [_BV(i)] of avr-libc: [1 << i]. *)
Definition _BV (i : Z) : Z := Z.shiftl 1 i.

End Machine.
Import Machine.

(** ** The platform: pins, timing, interrupts *)

Inductive level := LOW | HIGH.

Definition level_eqb (a b : level) : bool :=
  match a, b with
  | LOW, LOW | HIGH, HIGH => true
  | _, _ => false
  end.

(** The trigger argument of [attachInterrupt].  Arduino spells the level
    trigger [LOW], the same macro as the pin level. *)
Inductive trigger := TRIG_LOW | TRIG_CHANGE | TRIG_RISING | TRIG_FALLING.

(** The four static trampolines [globalISR0] .. [globalISR3]. *)
Inductive isr_t := globalISR0 | globalISR1 | globalISR2 | globalISR3.

Inductive event :=
| EvDigitalWrite (pin : Z) (v : level)
| EvDigitalRead (pin : Z) (v : level)
| EvDelayMicroseconds (us : Z)
| EvNoInterrupts
| EvInterrupts
| EvAttachInterrupt (irq : Z) (isr : isr_t) (mode : trigger)
| EvDetachInterrupt (irq : Z)
| EvYield.

(** The hardware world: the board's [digitalPinToInterrupt] table
    ([pin_irq]), what the input pins will show ([dat_in p k] is the level
    returned by the [k]-th [digitalRead] when it reads pin [p]), how many
    reads were made, and the events emitted so far, oldest first. *)
Record world := mkWorld {
  pin_irq : Z -> Z;
  dat_in : Z -> nat -> level;
  nreads : nat;
  trace : list event
}.

Definition emit (e : event) (w : world) : world :=
  {| pin_irq := pin_irq w; dat_in := dat_in w; nreads := nreads w;
     trace := trace w ++ [e] |}.

Definition digitalWrite (pin : Z) (v : level) (w : world) : world :=
  emit (EvDigitalWrite pin v) w.

Definition delayMicroseconds (us : Z) (w : world) : world :=
  emit (EvDelayMicroseconds us) w.

Definition digitalRead (pin : Z) (w : world) : level * world :=
  let v := dat_in w pin (nreads w) in
  (v, {| pin_irq := pin_irq w; dat_in := dat_in w; nreads := S (nreads w);
         trace := trace w ++ [EvDigitalRead pin v] |}).

Definition digitalPinToInterrupt (pin : Z) (w : world) : Z := pin_irq w pin.

Definition noInterrupts (w : world) : world := emit EvNoInterrupts w.
Definition interrupts (w : world) : world := emit EvInterrupts w.
Definition yield (w : world) : world := emit EvYield w.

Definition attachInterrupt (irq : Z) (f : isr_t) (mode : trigger) (w : world) : world :=
  emit (EvAttachInterrupt irq f mode) w.

Definition detachInterrupt (irq : Z) (w : world) : world :=
  emit (EvDetachInterrupt irq) w.

(** [NOT_AN_INTERRUPT] of Arduino.h. *)
Definition NOT_AN_INTERRUPT : Z := -1.

(** ** The class data *)

Inductive channel_t := CH_A | CH_B.

Inductive mode_t := GAIN_128 | GAIN_64.

Definition mode_eqb (a b : mode_t) : bool :=
  match a, b with
  | GAIN_128, GAIN_128 | GAIN_64, GAIN_64 => true
  | _, _ => false
  end.

(** C++ [float] is IEEE binary32: 24 bits of precision, exponents below 128. *)
Definition float := spec_float.
Definition prec32 : Z := 24.
Definition emax32 : Z := 128.

Record channelInfo_t := mkChan {
  raw : Z;
  tare : Z;
  calib : Z;
  range : float
}.

(** [_chanData[NUM_CHAN]], indexed by [channel_t]. *)
Record chan_array := mkArr { chanA : channelInfo_t; chanB : channelInfo_t }.

Definition chan_get (a : chan_array) (ch : channel_t) : channelInfo_t :=
  match ch with CH_A => chanA a | CH_B => chanB a end.

Definition chan_set (a : chan_array) (ch : channel_t) (c : channelInfo_t) : chan_array :=
  match ch with
  | CH_A => {| chanA := c; chanB := chanB a |}
  | CH_B => {| chanA := chanA a; chanB := c |}
  end.

Record MD_HX711 := mkHX {
  _pinClk : Z;
  _pinDat : Z;
  _enableB : bool;
  _mode : mode_t;
  _nextReadA : bool;
  _readCounter : Z;
  _chanData : chan_array;
  _myISRId : Z;
  _inISR : bool
}.

Definition set_enableB (b : bool) (o : MD_HX711) : MD_HX711 :=
  mkHX (_pinClk o) (_pinDat o) b (_mode o) (_nextReadA o) (_readCounter o)
       (_chanData o) (_myISRId o) (_inISR o).

Definition set_mode (m : mode_t) (o : MD_HX711) : MD_HX711 :=
  mkHX (_pinClk o) (_pinDat o) (_enableB o) m (_nextReadA o) (_readCounter o)
       (_chanData o) (_myISRId o) (_inISR o).

Definition set_nextReadA (b : bool) (o : MD_HX711) : MD_HX711 :=
  mkHX (_pinClk o) (_pinDat o) (_enableB o) (_mode o) b (_readCounter o)
       (_chanData o) (_myISRId o) (_inISR o).

Definition set_readCounter (n : Z) (o : MD_HX711) : MD_HX711 :=
  mkHX (_pinClk o) (_pinDat o) (_enableB o) (_mode o) (_nextReadA o) n
       (_chanData o) (_myISRId o) (_inISR o).

Definition set_chanData (a : chan_array) (o : MD_HX711) : MD_HX711 :=
  mkHX (_pinClk o) (_pinDat o) (_enableB o) (_mode o) (_nextReadA o) (_readCounter o)
       a (_myISRId o) (_inISR o).

Definition set_myISRId (i : Z) (o : MD_HX711) : MD_HX711 :=
  mkHX (_pinClk o) (_pinDat o) (_enableB o) (_mode o) (_nextReadA o) (_readCounter o)
       (_chanData o) i (_inISR o).

Definition set_inISR (b : bool) (o : MD_HX711) : MD_HX711 :=
  mkHX (_pinClk o) (_pinDat o) (_enableB o) (_mode o) (_nextReadA o) (_readCounter o)
       (_chanData o) (_myISRId o) b.

(** ** The protocol engine: [HX711ReadData] *)

(** Body of the first [do ... while]: one clock pulse that samples DAT. *)
Definition clock_in_bit (clk data value mask : Z) (w : world) : Z * world :=
  let w := digitalWrite clk HIGH w in
  let w := delayMicroseconds 1 w in
  let '(d, w) := digitalRead data w in
  let value :=
    if level_eqb d HIGH then to_int32 (Z.lor (to_uint32 value) mask) else value in
  let w := digitalWrite clk LOW w in
  let w := delayMicroseconds 1 w in
  (value, w).

(** [do { ...; mask >>= 1; } while (mask > 0);] *)
Equations? read_bits (clk data value mask : Z) (w : world) : Z * world
  by wf (Z.to_nat mask) lt :=
  read_bits clk data value mask w with Z_lt_dec 0 (Z.shiftr mask 1) => {
    | left _ :=
        read_bits clk data (fst (clock_in_bit clk data value mask w))
                  (Z.shiftr mask 1) (snd (clock_in_bit clk data value mask w));
    | right _ := clock_in_bit clk data value mask w }.
Proof.
  match goal with H : 0 < Z.shiftr ?m 1 |- _ =>
    rewrite Z.shiftr_div_pow2 in * by lia; change (2 ^ 1) with 2 in *;
    pose proof (Z.div_mod m 2 ltac:(lia));
    pose proof (Z.mod_pos_bound m 2 ltac:(lia))
  end.
  lia.
Qed.

(** Body of the second [do ... while]: one clock pulse, nothing sampled. *)
Definition clock_pulse (clk : Z) (w : world) : world :=
  let w := digitalWrite clk HIGH w in
  let w := delayMicroseconds 1 w in
  let w := digitalWrite clk LOW w in
  delayMicroseconds 1 w.

(** [do { ...; mode--; } while (mode > 0);] with [mode] a [uint8_t]. *)
Equations? extra_pulses (clk mode : Z) (w : world) : world
  by wf (Z.to_nat (to_uint8 (mode - 1))) lt :=
  extra_pulses clk mode w with Z_lt_dec 0 (to_uint8 (mode - 1)) => {
    | left _ := extra_pulses clk (to_uint8 (mode - 1)) (clock_pulse clk w);
    | right _ := clock_pulse clk w }.
Proof.
  unfold to_uint8, to_unsigned in *.
  pose proof (Z.mod_pos_bound (mode - 1) (2 ^ 8) eq_refl).
  rewrite (Z.mod_small ((mode - 1) mod 2 ^ 8 - 1)) by lia.
  lia.
Qed.

Definition HX711ReadData (o : MD_HX711) (mode : Z) (w : world) : Z * world :=
  let clk := _pinClk o in
  let data := _pinDat o in
  let value := 0 in
  let mask := 0x800000 in
  let '(value, w) := read_bits clk data value mask w in
  let w := extra_pulses clk mode w in
  (value, w).

(** ** Configuration and data accessors (inline methods of the header) *)

Definition enableChannelB (ena : bool) (o : MD_HX711) : MD_HX711 := set_enableB ena o.

Definition setGainA (mode : mode_t) (o : MD_HX711) : MD_HX711 := set_mode mode o.

Definition isInterruptMode (o : MD_HX711) : bool := negb (_myISRId o =? UINT8_MAX).

Definition isReady (o : MD_HX711) (w : world) : bool * world :=
  let '(d, w) := digitalRead (_pinDat o) w in
  (level_eqb d LOW, w).

Definition setZeroTare (t : Z) (ch : channel_t) (o : MD_HX711) : MD_HX711 :=
  let c := chan_get (_chanData o) ch in
  set_chanData (chan_set (_chanData o) ch (mkChan (raw c) t (calib c) (range c))) o.

Definition setCalibration (value : Z) (rng : float) (ch : channel_t) (o : MD_HX711)
  : MD_HX711 :=
  let c := chan_get (_chanData o) ch in
  set_chanData (chan_set (_chanData o) ch (mkChan (raw c) (tare c) value rng)) o.

Definition getZeroTare (ch : channel_t) (o : MD_HX711) : Z := tare (chan_get (_chanData o) ch).
Definition getCalibration (ch : channel_t) (o : MD_HX711) : Z := calib (chan_get (_chanData o) ch).
Definition getRaw (ch : channel_t) (o : MD_HX711) : Z := raw (chan_get (_chanData o) ch).

(** [int32_t] subtraction, reduced to 32 bits. *)
Definition getTared (ch : channel_t) (o : MD_HX711) : Z :=
  to_int32 (raw (chan_get (_chanData o) ch) - tare (chan_get (_chanData o) ch)).

Definition getReadCount (o : MD_HX711) : Z := _readCounter o.

(** ** Calibration math *)

(** [float(x)] for an [int32_t] [x]: round to nearest, ties to even. *)
Definition float_of_int32 (x : Z) : float := binary_normalize prec32 emax32 x 0 false.

Definition fmul : float -> float -> float := SFmul prec32 emax32.
Definition fsub : float -> float -> float := SFsub prec32 emax32.
Definition fdiv : float -> float -> float := SFdiv prec32 emax32.
Definition NAN : float := S754_nan.

Definition getCalibrated (ch : channel_t) (o : MD_HX711) : float :=
  let c := chan_get (_chanData o) ch in
  if to_int32 (calib c - tare c) =? 0 then NAN
  else fdiv (fmul (range c) (fsub (float_of_int32 (raw c)) (float_of_int32 (tare c))))
            (fsub (float_of_int32 (calib c)) (float_of_int32 (tare c))).

(** ** The acquisition controller *)

Definition powerDown (o : MD_HX711) (w : world) : world :=
  let w := digitalWrite (_pinClk o) HIGH w in
  delayMicroseconds 64 w.

Definition powerUp (o : MD_HX711) (w : world) : world :=
  digitalWrite (_pinClk o) LOW w.

(** The extra clock cycles [readNB] asks for, from the flags as they are
    after the next-channel toggle. *)
Definition readNB_extras (o : MD_HX711) : Z :=
  if negb (_nextReadA o) then 2
  else if mode_eqb (_mode o) GAIN_128 then 1
  else 3.

(** [value & 0x800000 ? value | 0xff000000 : value] on an [int32_t]. *)
Definition sign_extend (value : Z) : Z :=
  if negb (Z.land value 0x800000 =? 0)
  then to_int32 (Z.lor (to_uint32 value) 0xff000000)
  else value.

(** The channel a read is filed under; the same expression closes [read]. *)
Definition read_channel (o : MD_HX711) : channel_t :=
  if _enableB o && _nextReadA o then CH_B else CH_A.

Definition readNB (o : MD_HX711) (w : world) : MD_HX711 * world :=
  let o := set_inISR true o in
  let o := if _enableB o then set_nextReadA (negb (_nextReadA o)) o else o in
  let extras := readNB_extras o in
  let w := noInterrupts w in
  let '(value, w) := HX711ReadData o extras w in
  let w := interrupts w in
  let value := sign_extend value in
  let ch := read_channel o in
  let c := chan_get (_chanData o) ch in
  let o := set_chanData
             (chan_set (_chanData o) ch (mkChan value (tare c) (calib c) (range c))) o in
  let o := set_readCounter (to_uint32 (_readCounter o + 1)) o in
  let o := set_inISR false o in
  (o, w).

(** [while (!isReady()) { yield(); }]: [None] when the fuel runs out before
    DAT is seen low. *)
Fixpoint wait_ready (fuel : nat) (o : MD_HX711) (w : world) : option world :=
  let '(r, w) := isReady o w in
  if r then Some w
  else match fuel with
       | O => None
       | S fuel' => wait_ready fuel' o (yield w)
       end.

Definition read (fuel : nat) (o : MD_HX711) (w : world)
  : option (channel_t * MD_HX711 * world) :=
  if negb (isInterruptMode o) then
    match wait_ready fuel o w with
    | None => None
    | Some w =>
        let '(o, w) := readNB o w in
        Some (read_channel o, o, w)
    end
  else Some (read_channel o, o, w).

(** ** The interrupt instance registry *)

Definition MAX_INSTANCE : Z := 4.

(** Instances are named by their address ([this]). *)
Definition addr := positive.

(** The static data: [ISRUsed] and [myInstance[MAX_INSTANCE]] (a null
    pointer is [None]). *)
Record registry := mkReg {
  ISRUsed : Z;
  myInstance : list (option addr)
}.

Definition registry_init : registry :=
  {| ISRUsed := 0; myInstance := [None; None; None; None] |}.

(** The lookup table local to [enableISR]. *)
Definition ISRfunc : list isr_t := [globalISR0; globalISR1; globalISR2; globalISR3].

Definition slot_free (g : registry) (i : Z) : bool :=
  Z.land (ISRUsed g) (_BV i) =? 0.

(** [for (uint8_t i = 0; i < MAX_INSTANCE; i++) if (free) { ...; break; }] *)
Equations? alloc_slot (this : addr) (i : Z) (o : MD_HX711) (g : registry)
  : MD_HX711 * registry by wf (Z.to_nat (MAX_INSTANCE - i)) lt :=
  alloc_slot this i o g with Z_lt_dec i MAX_INSTANCE => {
    | left _ with slot_free g i => {
        | true :=
            let o := set_myISRId i o in
            let g := {| ISRUsed := ISRUsed g;
                        myInstance := <[Z.to_nat (_myISRId o) := Some this]> (myInstance g) |} in
            let g := {| ISRUsed := to_uint8 (Z.lor (ISRUsed g) (_BV (_myISRId o)));
                        myInstance := myInstance g |} in
            (o, g);
        | false := alloc_slot this (i + 1) o g };
    | right _ := (o, g) }.
Proof. lia. Qed.

(** [None] stands for undefined behaviour: indexing [ISRfunc] out of range. *)
Definition enableISR (this : addr) (o : MD_HX711) (g : registry) (w : world)
  : option (bool * MD_HX711 * registry * world) :=
  let irq := to_int8 (digitalPinToInterrupt (_pinDat o) w) in
  if isInterruptMode o then Some (false, o, g, w)
  else if negb (irq =? NOT_AN_INTERRUPT) then
    let '(o, g) := alloc_slot this 0 o g in
    if negb (_myISRId o =? UINT8_MAX) then
      match ISRfunc !! Z.to_nat (_myISRId o) with
      | Some f =>
          let w := attachInterrupt irq f TRIG_LOW w in
          let w := powerDown o w in
          let w := powerUp o w in
          Some (negb (irq =? NOT_AN_INTERRUPT), o, g, w)
      | None => None
      end
    else
      let irq := NOT_AN_INTERRUPT in
      Some (negb (irq =? NOT_AN_INTERRUPT), o, g, w)
  else Some (negb (irq =? NOT_AN_INTERRUPT), o, g, w).

(** [while (_inISR) { yield(); }]: nothing in a sequential run clears the
    flag, so the wait ends only if the flag is already clear. *)
Fixpoint wait_inISR (fuel : nat) (o : MD_HX711) (w : world) : option world :=
  if _inISR o then
    match fuel with
    | O => None
    | S fuel' => wait_inISR fuel' o (yield w)
    end
  else Some w.

Definition disableISR (fuel : nat) (o : MD_HX711) (g : registry) (w : world)
  : option (MD_HX711 * registry * world) :=
  let r :=
    if isInterruptMode o then
      match wait_inISR fuel o w with
      | None => None
      | Some w =>
          let w := noInterrupts w in
          let w := detachInterrupt (digitalPinToInterrupt (_pinDat o) w) w in
          let g := {| ISRUsed := to_uint8 (Z.land (ISRUsed g) (Z.lnot (_BV (_myISRId o))));
                      myInstance := myInstance g |} in
          let w := interrupts w in
          Some (g, w)
      end
    else Some (g, w) in
  match r with
  | None => None
  | Some (g, w) =>
      let o := set_myISRId UINT8_MAX o in
      let o := set_inISR false o in
      Some (o, g, w)
  end.

Definition enableInterruptMode (fuel : nat) (this : addr) (enable : bool)
    (o : MD_HX711) (g : registry) (w : world)
  : option (bool * MD_HX711 * registry * world) :=
  let b := true in
  if enable then enableISR this o g w
  else
    match disableISR fuel o g w with
    | None => None
    | Some (o, g, w) => Some (b, o, g, w)
    end.

Definition zero_channel : channelInfo_t :=
  {| raw := 0; tare := 0; calib := 0; range := S754_zero false |}.

Definition reset (fuel : nat) (o : MD_HX711) (g : registry) (w : world)
  : option (MD_HX711 * registry * world) :=
  let w := powerDown o w in
  let w := powerUp o w in
  let o := enableChannelB false o in
  let o := setGainA GAIN_128 o in
  match disableISR fuel o g w with
  | None => None
  | Some (o, g, w) =>
      let o := set_nextReadA true o in
      let o := set_readCounter 0 o in
      let o := set_chanData (chan_set (_chanData o) CH_A zero_channel) o in
      let o := set_chanData (chan_set (_chanData o) CH_B zero_channel) o in
      Some (o, g, w)
  end.

(** The constructor initialises the pins and [_myISRId] only; the other
    members keep whatever the storage held ([junk]). *)
Definition construct (pinClk pinDat : Z) (junk : MD_HX711) : MD_HX711 :=
  set_myISRId UINT8_MAX
    (mkHX pinClk pinDat (_enableB junk) (_mode junk) (_nextReadA junk)
          (_readCounter junk) (_chanData junk) (_myISRId junk) (_inISR junk)).

(** ** Several instances: the objects live in a heap *)

Record system := mkSys {
  objs : gmap addr MD_HX711;
  statics : registry;
  hw : world
}.

Definition sys_enableInterruptMode (fuel : nat) (this : addr) (enable : bool) (s : system)
  : option (bool * system) :=
  match objs s !! this with
  | None => None
  | Some o =>
      match enableInterruptMode fuel this enable o (statics s) (hw s) with
      | None => None
      | Some (b, o, g, w) => Some (b, mkSys (<[this := o]> (objs s)) g w)
      end
  end.

Definition sys_reset (fuel : nat) (this : addr) (s : system) : option system :=
  match objs s !! this with
  | None => None
  | Some o =>
      match reset fuel o (statics s) (hw s) with
      | None => None
      | Some (o, g, w) => Some (mkSys (<[this := o]> (objs s)) g w)
      end
  end.

Definition isr_slot (f : isr_t) : nat :=
  match f with
  | globalISR0 => 0
  | globalISR1 => 1
  | globalISR2 => 2
  | globalISR3 => 3
  end.

(** [globalISRn]: [myInstance[n]->readNB()]; [None] when the slot holds a
    null or dangling pointer. *)
Definition run_isr (f : isr_t) (s : system) : option system :=
  match myInstance (statics s) !! isr_slot f with
  | Some (Some this) =>
      match objs s !! this with
      | None => None
      | Some o =>
          let '(o, w) := readNB o (hw s) in
          Some (mkSys (<[this := o]> (objs s)) (statics s) w)
      end
  | _ => None
  end.

(** ** Scripts of calls on one instance *)

Inductive op := OpRead | OpSetGainA (g : mode_t).

(** What a read is seen to do: the channel it reports, the clock pulses it
    sends beyond the 24 data pulses, the gain selected when it ran. *)
Record obs := mkObs {
  obs_channel : channel_t;
  obs_extras : Z;
  obs_gain : mode_t
}.

(** * Vocabulary of the statements *)

Definition level_bit (d : level) : Z :=
  match d with HIGH => 1 | LOW => 0 end.

(** One sampled clock cycle, as seen on the pins. *)
Definition sampled_cycle (clk data : Z) (d : level) : list event :=
  [EvDigitalWrite clk HIGH; EvDelayMicroseconds 1; EvDigitalRead data d;
   EvDigitalWrite clk LOW; EvDelayMicroseconds 1].

(** One clock cycle without a sample. *)
Definition plain_cycle (clk : Z) : list event :=
  [EvDigitalWrite clk HIGH; EvDelayMicroseconds 1;
   EvDigitalWrite clk LOW; EvDelayMicroseconds 1].

(** The levels the next [n] reads of a pin return, starting at read [start]. *)
Fixpoint samples (line : nat -> level) (start n : nat) : list level :=
  match n with
  | O => []
  | S n' => line start :: samples line (S start) n'
  end.

(** Most significant bit first: sample [i] of [n] weighs [2 ^ (n - 1 - i)]. *)
Fixpoint msb_value (ds : list level) : Z :=
  match ds with
  | [] => 0
  | d :: ds' => level_bit d * 2 ^ Z.of_nat (length ds') + msb_value ds'
  end.

(** The world after [reads] more reads and the events [evs]. *)
Definition after_events (w : world) (reads : nat) (evs : list event) : world :=
  {| pin_irq := pin_irq w; dat_in := dat_in w; nreads := reads + nreads w;
     trace := trace w ++ evs |}.

Definition is_rising (clk : Z) (e : event) : bool :=
  match e with
  | EvDigitalWrite p HIGH => p =? clk
  | _ => false
  end.

(** Number of clock pulses (rising edges on CLK) among the events. *)
Definition clock_pulses (clk : Z) (evs : list event) : Z :=
  Z.of_nat (length (List.filter (is_rising clk) evs)).

(** The events of one exchange with [e] extra pulses, the data line
    showing [ds] on the sampled pulses. *)
Definition exchange (clk data : Z) (ds : list level) (e : Z) : list event :=
  concat (map (sampled_cycle clk data) ds) ++
  concat (replicate (Z.to_nat e) (plain_cycle clk)).

(** The flag [_nextReadA] as [readNB] leaves it. *)
Definition toggled (o : MD_HX711) : bool :=
  if _enableB o then negb (_nextReadA o) else _nextReadA o.

(** The events of one [readNB] with [e] extra pulses. *)
Definition readNB_events (o : MD_HX711) (w : world) (e : Z) : list event :=
  [EvNoInterrupts] ++
  exchange (_pinClk o) (_pinDat o) (samples (dat_in w (_pinDat o)) (nreads w) 24) e ++
  [EvInterrupts].

(** The 24-bit pattern [readNB] clocks in from world [w]. *)
Definition pattern (o : MD_HX711) (w : world) : Z :=
  msb_value (samples (dat_in w (_pinDat o)) (nreads w) 24).

(** The events a call added to the trace. *)
Definition emitted (w w' : world) : list event :=
  drop (length (trace w)) (trace w').

Definition observe (o : MD_HX711) (w : world) : obs :=
  let '(o', w') := readNB o w in
  {| obs_channel := read_channel o';
     obs_extras := clock_pulses (_pinClk o) (emitted w w') - 24;
     obs_gain := _mode o |}.

(** Runs a script; the log has one entry per read, oldest first. *)
Fixpoint run (ops : list op) (o : MD_HX711) (w : world) : list obs * (MD_HX711 * world) :=
  match ops with
  | [] => ([], (o, w))
  | OpRead :: ops' =>
      let '(log, r) := run ops' (fst (readNB o w)) (snd (readNB o w)) in
      (observe o w :: log, r)
  | OpSetGainA g :: ops' => run ops' (setGainA g o) w
  end.

Fixpoint count_reads (ops : list op) : nat :=
  match ops with
  | [] => 0
  | OpRead :: ops' => S (count_reads ops')
  | OpSetGainA _ :: ops' => count_reads ops'
  end.

Definition gain_extras (g : mode_t) : Z :=
  match g with GAIN_128 => 1 | GAIN_64 => 3 end.

Definition other_channel (ch : channel_t) : channel_t :=
  match ch with CH_A => CH_B | CH_B => CH_A end.

(** The extra pulses that make the device convert [ch] next. *)
Definition extras_selecting (ch : channel_t) (g : mode_t) : Z :=
  match ch with CH_B => 2 | CH_A => gain_extras g end.

(** The log the specification asks for when Channel B is enabled: channels
    alternate, starting with A when [nextA], and every read sends the extras
    that select the channel of the read after it. *)
Fixpoint spec_alternating_log (ops : list op) (nextA : bool) (g : mode_t) : list obs :=
  match ops with
  | [] => []
  | OpSetGainA g' :: ops' => spec_alternating_log ops' nextA g'
  | OpRead :: ops' =>
      let ch := if nextA then CH_A else CH_B in
      {| obs_channel := ch;
         obs_extras := extras_selecting (other_channel ch) g;
         obs_gain := g |} :: spec_alternating_log ops' (negb nextA) g
  end.

(** ** Example board and instances *)

(** [digitalPinToInterrupt] of the Arduino Mega 2560: pins 2, 3, 18 .. 21. *)
Definition mega_pin_irq (p : Z) : Z :=
  if p =? 2 then 0
  else if p =? 3 then 1
  else if (18 <=? p) && (p <=? 21) then 23 - p
  else NOT_AN_INTERRUPT.

(** A data line that toggles at every read, high first. *)
Definition demo_world : world :=
  {| pin_irq := mega_pin_irq;
     dat_in := fun _ k => if Nat.even k then HIGH else LOW;
     nreads := 0;
     trace := [] |}.

(** Zero-filled storage, as for an object with static storage duration. *)
Definition zero_storage : MD_HX711 :=
  mkHX 0 0 false GAIN_128 false 0 (mkArr zero_channel zero_channel) 0 false.

(** A scale with CLK on pin 4 and DAT on pin 2. *)
Definition demo_scale : MD_HX711 := construct 4 2 zero_storage.

(** Five scales on the interrupt pins of the Mega, none attached yet. *)
Definition five_scales : system :=
  {| objs := list_to_map
               [(1%positive, construct 4 2 zero_storage);
                (2%positive, construct 5 3 zero_storage);
                (3%positive, construct 6 18 zero_storage);
                (4%positive, construct 7 19 zero_storage);
                (5%positive, construct 8 20 zero_storage)];
     statics := registry_init;
     hw := demo_world |}.

(** [enableInterruptMode(true)] on each of the instances in turn. *)
Fixpoint attach_each (ids : list addr) (s : system) : option (list bool * system) :=
  match ids with
  | [] => Some ([], s)
  | this :: ids' =>
      match sys_enableInterruptMode 0 this true s with
      | None => None
      | Some (b, s') =>
          match attach_each ids' s' with
          | None => None
          | Some (bs, s'') => Some (b :: bs, s'')
          end
      end
  end.

(** The members [reset] gives every instance; the pins are kept. *)
Definition defaults (o : MD_HX711) : MD_HX711 :=
  mkHX (_pinClk o) (_pinDat o) false GAIN_128 true 0
       (mkArr zero_channel zero_channel) UINT8_MAX false.

(** The events of the power-down, power-up sequence on pin [clk]. *)
Definition power_cycle (clk : Z) : list event :=
  [EvDigitalWrite clk HIGH; EvDelayMicroseconds 64; EvDigitalWrite clk LOW].

(** ** The rest of the class: [autoZeroTare] and the destructor *)

Definition NUM_CHAN : Z := 2.

(** [NUM_PASSES] of [autoZeroTare]. *)
Definition NUM_PASSES : Z := 3.

(** The value [autoZeroTare] gives the tare in pass [n]: the raw value in
    the first pass, then [((tare * (n - 1)) + raw) / n] in 32-bit signed
    arithmetic, the division truncating towards zero. *)
Definition tare_update (n t r : Z) : Z :=
  if n =? 0 then r
  else to_int32 (Z.quot (to_int32 (to_int32 (t * (n - 1)) + r)) n).

(** Body of the inner loop of [autoZeroTare]: one [read], then the tare of
    the channel it reports. *)
Definition tare_step (fuel : nat) (n : Z) (o : MD_HX711) (w : world)
  : option (MD_HX711 * world) :=
  match read fuel o w with
  | None => None
  | Some (ch, o, w) =>
      let c := chan_get (_chanData o) ch in
      Some (setZeroTare (tare_update n (tare c) (raw c)) ch o, w)
  end.

(** [for (int8_t i = 0; i < NUM_CHAN; i++) { ... }] *)
Equations? tare_channels (fuel : nat) (n i : Z) (o : MD_HX711) (w : world)
  : option (MD_HX711 * world) by wf (Z.to_nat (NUM_CHAN - i)) lt :=
  tare_channels fuel n i o w with Z_lt_dec i NUM_CHAN => {
    | left _ with tare_step fuel n o w => {
        | Some r := tare_channels fuel n (i + 1) (fst r) (snd r);
        | None := None };
    | right _ := Some (o, w) }.
Proof. lia. Qed.

(** [for (int8_t n = 0; n < NUM_PASSES; n++) { ... }] *)
Equations? tare_passes (fuel : nat) (n : Z) (o : MD_HX711) (w : world)
  : option (MD_HX711 * world) by wf (Z.to_nat (NUM_PASSES - n)) lt :=
  tare_passes fuel n o w with Z_lt_dec n NUM_PASSES => {
    | left _ with tare_channels fuel n 0 o w => {
        | Some r := tare_passes fuel (n + 1) (fst r) (snd r);
        | None := None };
    | right _ := Some (o, w) }.
Proof. lia. Qed.

Definition autoZeroTare (fuel : nat) (this : addr) (o : MD_HX711) (g : registry) (w : world)
  : option (MD_HX711 * registry * world) :=
  let b := _enableB o in
  let wasIRQ := isInterruptMode o in
  let r :=
    if wasIRQ then
      match enableInterruptMode fuel this false o g w with
      | None => None
      | Some (_, o, g, w) => Some (o, g, w)
      end
    else Some (o, g, w) in
  match r with
  | None => None
  | Some (o, g, w) =>
      let o := enableChannelB true o in
      match tare_passes fuel 0 o w with
      | None => None
      | Some (o, w) =>
          let o := enableChannelB b o in
          if wasIRQ then
            match enableInterruptMode fuel this true o g w with
            | None => None
            | Some (_, o, g, w) => Some (o, g, w)
            end
          else Some (o, g, w)
      end
  end.

(** [~MD_HX711() { disableISR(); }]: the object leaves the heap. *)
Definition sys_destroy (fuel : nat) (this : addr) (s : system) : option system :=
  match objs s !! this with
  | None => None
  | Some o =>
      match disableISR fuel o (statics s) (hw s) with
      | None => None
      | Some (_, g, w) => Some (mkSys (delete this (objs s)) g w)
      end
  end.

(** The calls a program makes on a system of instances, and the interrupts
    that fire in between. *)
Inductive sys_op :=
| SysAttach (this : addr)
| SysDetach (this : addr)
| SysReset (this : addr)
| SysDestroy (this : addr)
| SysInterrupt (f : isr_t).

Definition sys_step (fuel : nat) (op : sys_op) (s : system) : option system :=
  match op with
  | SysAttach this => snd <$> sys_enableInterruptMode fuel this true s
  | SysDetach this => snd <$> sys_enableInterruptMode fuel this false s
  | SysReset this => sys_reset fuel this s
  | SysDestroy this => sys_destroy fuel this s
  | SysInterrupt f => run_isr f s
  end.

Fixpoint sys_run (fuel : nat) (ops : list sys_op) (s : system) : option system :=
  match ops with
  | [] => Some s
  | op :: ops' =>
      match sys_step fuel op s with
      | None => None
      | Some s' => sys_run fuel ops' s'
      end
  end.

(** ** Vocabulary of the further properties *)

(** [k] calls of [read] in a row, with the channel each one reports and the
    raw value it leaves there. *)
Fixpoint reads (k : nat) (fuel : nat) (o : MD_HX711) (w : world)
  : option (list (channel_t * Z) * MD_HX711 * world) :=
  match k with
  | O => Some ([], o, w)
  | S k' =>
      match read fuel o w with
      | None => None
      | Some (ch, o1, w1) =>
          match reads k' fuel o1 w1 with
          | None => None
          | Some (log, o2, w2) => Some ((ch, getRaw ch o1) :: log, o2, w2)
          end
      end
  end.

(** The events of [k] polls of DAT that find it high (each followed by a
    [yield]) and of one that finds it low. *)
Definition polls (data : Z) (k : nat) : list event :=
  concat (replicate k [EvDigitalRead data HIGH; EvYield]) ++ [EvDigitalRead data LOW].

(** An attached instance owns its slot: the slot index is in range, the
    occupancy bit is set and the table entry points back at the instance. *)
Definition owns_slot (g : registry) (this : addr) (o : MD_HX711) : Prop :=
  isInterruptMode o = true ->
  0 <= _myISRId o < MAX_INSTANCE
  /\ slot_free g (_myISRId o) = false
  /\ myInstance g !! Z.to_nat (_myISRId o) = Some (Some this).

Definition registry_ok (s : system) : Prop :=
  length (myInstance (statics s)) = 4%nat
  /\ forall this o, objs s !! this = Some o -> owns_slot (statics s) this o.

(** [readNB] in closed form: the state and the world it returns. *)
Definition readNB_closed (o : MD_HX711) (w : world) : MD_HX711 * world :=
  let nextA := toggled o in
  let e := if negb nextA then 2 else if mode_eqb (_mode o) GAIN_128 then 1 else 3 in
  let ch := if _enableB o && nextA then CH_B else CH_A in
  let c := chan_get (_chanData o) ch in
  (mkHX (_pinClk o) (_pinDat o) (_enableB o) (_mode o) nextA
        (to_uint32 (_readCounter o + 1))
        (chan_set (_chanData o) ch
           (mkChan (sign_extend (pattern o w)) (tare c) (calib c) (range c)))
        (_myISRId o) false,
   after_events w 24 (readNB_events o w e)).

(** Six conversions for [autoZeroTare] to read: A 90, B 200, A 100, B 200,
    A 110, B 200. *)
Definition tare_demo_readings : list Z := [90; 200; 100; 200; 110; 200].

(** A data line that is low at every 25th read, when a conversion is
    polled for, and then shifts that conversion out, high bit first. *)
Definition tare_demo_world : world :=
  {| pin_irq := mega_pin_irq;
     dat_in := fun _ k =>
       let cyc := (k / 25)%nat in
       let pos := (k mod 25)%nat in
       if Nat.eqb pos 0 then LOW
       else if Z.testbit (nth cyc tare_demo_readings 0) (24 - Z.of_nat pos)
            then HIGH else LOW;
     nreads := 0;
     trace := [] |}.

(** The raw values of both channels are 24-bit signed numbers. *)
Definition raw_in_range (o : MD_HX711) : Prop :=
  forall ch, - 2 ^ 23 <= getRaw ch o < 2 ^ 23.

(** The instance with the tares of [cx] and of the other channel set. *)
Definition with_tares (tx ty : Z) (cx : channel_t) (o : MD_HX711) : MD_HX711 :=
  setZeroTare ty (other_channel cx) (setZeroTare tx cx o).

(** The level of pin [clk] after the events, from the level [init] before
    them: that of the last write to the pin. *)
Definition clk_after (clk : Z) (evs : list event) (init : level) : level :=
  fold_left (fun l e => match e with
                        | EvDigitalWrite p v => if p =? clk then v else l
                        | _ => l
                        end) evs init.

(** * Properties *)

(** ** Bit-level facts *)

Section BitFacts.

Lemma land_pow2 (a k : Z) :
  0 <= k -> Z.land a (2 ^ k) = if Z.testbit a k then 2 ^ k else 0.
Proof.
  intros Hk. apply Z.bits_inj'. intros n Hn.
  rewrite Z.land_spec, Z.pow2_bits_eqb by assumption.
  destruct (Z.eqb_spec k n) as [->|Hne].
  - rewrite andb_true_r. destruct (Z.testbit a n) eqn:E.
    + now rewrite Z.pow2_bits_true.
    + now rewrite Z.bits_0.
  - rewrite andb_false_r. destruct (Z.testbit a k).
    + now rewrite Z.pow2_bits_false.
    + now rewrite Z.bits_0.
Qed.

Lemma lor_disjoint (a b : Z) : Z.land a b = 0 -> Z.lor a b = a + b.
Proof.
  intros H. rewrite <- Z.lxor_lor by assumption.
  symmetry. now apply Z.add_nocarry_lxor.
Qed.

Lemma testbit_above (v n k : Z) : 0 <= v < 2 ^ k -> k <= n -> Z.testbit v n = false.
Proof.
  intros Hv Hn. assert (0 <= k).
  { destruct (Z_lt_le_dec k 0) as [Hk|]; [|assumption].
    rewrite Z.pow_neg_r in Hv by assumption. lia. }
  rewrite Z.testbit_false by lia.
  rewrite Z.div_small; [reflexivity|].
  split; [lia|]. apply Z.lt_le_trans with (2 ^ k); [lia|].
  apply Z.pow_le_mono_r; lia.
Qed.

Lemma to_uint32_small (v : Z) : 0 <= v < 2 ^ 32 -> to_uint32 v = v.
Proof. intros H. unfold to_uint32, to_unsigned. now apply Z.mod_small. Qed.

Lemma to_int32_small (v : Z) : is_int32 v -> to_int32 v = v.
Proof.
  unfold is_int32, INT32_MIN, INT32_MAX, to_int32, to_signed. intros H.
  change (32 - 1) with 31. rewrite Z.mod_small; lia.
Qed.

Lemma to_int32_range (v : Z) : is_int32 (to_int32 v).
Proof.
  unfold is_int32, INT32_MIN, INT32_MAX, to_int32, to_signed.
  change (32 - 1) with 31.
  pose proof (Z.mod_pos_bound (v + 2 ^ 31) (2 ^ 32) eq_refl). lia.
Qed.

End BitFacts.

(** ** The pulse train of [HX711ReadData] *)

Section PulseTrain.

Variables clk data : Z.

Lemma after_events_compose w a e1 b e2 :
  after_events (after_events w a e1) b e2 = after_events w (b + a) (e1 ++ e2).
Proof.
  unfold after_events; cbn. f_equal; [lia | now rewrite app_assoc].
Qed.

Lemma after_events_nil w : after_events w 0 [] = w.
Proof. destruct w; unfold after_events; cbn. now rewrite app_nil_r. Qed.

Lemma length_samples line start n : length (samples line start n) = n.
Proof. revert start; induction n; intros; cbn; [reflexivity | now rewrite IHn]. Qed.

Lemma msb_value_bound ds : 0 <= msb_value ds < 2 ^ Z.of_nat (length ds).
Proof.
  induction ds as [|d ds IH]; cbn [msb_value length]; [cbn; lia|].
  rewrite Nat2Z.inj_succ, Z.pow_succ_r by lia.
  destruct d; cbn [level_bit]; lia.
Qed.

Lemma clock_in_bit_events value m w :
  snd (clock_in_bit clk data value m w) =
  after_events w 1 (sampled_cycle clk data (dat_in w data (nreads w))).
Proof.
  unfold clock_in_bit, digitalRead, digitalWrite, delayMicroseconds, emit,
    after_events, sampled_cycle; cbn.
  f_equal. now rewrite <- !app_assoc.
Qed.

Lemma clock_in_bit_value value k w :
  (0 <= k < 24)%Z -> 0 <= value < 2 ^ 24 -> value mod 2 ^ (k + 1) = 0 ->
  fst (clock_in_bit clk data value (2 ^ k) w) =
  value + level_bit (dat_in w data (nreads w)) * 2 ^ k.
Proof.
  intros Hk Hv Hmod.
  unfold clock_in_bit, digitalRead, digitalWrite, delayMicroseconds, emit; cbn.
  destruct (dat_in w data (nreads w)); cbn [level_eqb level_bit]; [lia|].
  rewrite to_uint32_small by lia.
  assert (Hbit : Z.testbit value k = false).
  { apply Z.mod_divide in Hmod; [|lia]. destruct Hmod as [q ->].
    apply Z.mul_pow2_bits_low. lia. }
  rewrite lor_disjoint by (rewrite land_pow2, Hbit by lia; reflexivity).
  assert (2 ^ k <= 2 ^ 23) by (apply Z.pow_le_mono_r; lia).
  rewrite to_int32_small by (unfold is_int32, INT32_MIN, INT32_MAX; lia).
  lia.
Qed.

Lemma read_bits_step value m w :
  read_bits clk data value m w =
  if 0 <? Z.shiftr m 1
  then read_bits clk data (fst (clock_in_bit clk data value m w)) (Z.shiftr m 1)
                 (snd (clock_in_bit clk data value m w))
  else clock_in_bit clk data value m w.
Proof.
  rewrite read_bits_equation_1.
  destruct (Z_lt_dec 0 (Z.shiftr m 1)) as [H|H]; cbn.
  - apply Z.ltb_lt in H. now rewrite H.
  - apply Z.ltb_nlt in H. now rewrite H.
Qed.

(** The first loop, entered with mask [2 ^ k]: it samples [k + 1] bits and
    adds them, most significant first, to a [value] whose low bits are
    still clear. *)
Lemma read_bits_spec (k : nat) : forall value w,
  (k < 24)%nat -> 0 <= value < 2 ^ 24 -> value mod 2 ^ (Z.of_nat k + 1) = 0 ->
  read_bits clk data value (2 ^ Z.of_nat k) w =
  (value + msb_value (samples (dat_in w data) (nreads w) (S k)),
   after_events w (S k)
     (concat (map (sampled_cycle clk data) (samples (dat_in w data) (nreads w) (S k))))).
Proof.
  induction k as [|k IH]; intros value w Hk Hv Hmod; rewrite read_bits_step.
  - change (Z.shiftr (2 ^ Z.of_nat 0) 1) with 0. cbn [Z.ltb Z.compare].
    rewrite (surjective_pairing (clock_in_bit _ _ _ _ _)).
    rewrite clock_in_bit_events.
    change (2 ^ Z.of_nat 0) with (2 ^ 0).
    rewrite clock_in_bit_value by (cbn in *; lia).
    cbn [samples msb_value length concat map]. rewrite app_nil_r.
    f_equal. cbn. lia.
  - assert (Hsh : Z.shiftr (2 ^ Z.of_nat (S k)) 1 = 2 ^ Z.of_nat k).
    { rewrite Z.shiftr_div_pow2 by lia. rewrite Nat2Z.inj_succ, Z.pow_succ_r by lia.
      change (2 ^ 1) with 2. rewrite Z.mul_comm. apply Z.div_mul. lia. }
    rewrite Hsh.
    assert (Hpos : 0 < 2 ^ Z.of_nat k) by (apply Z.pow_pos_nonneg; lia).
    apply Z.ltb_lt in Hpos as Hpos'. rewrite Hpos'.
    rewrite clock_in_bit_events, clock_in_bit_value by lia.
    set (d := dat_in w data (nreads w)).
    assert (Hk2 : 2 ^ (Z.of_nat (S k) + 1) = 2 * 2 ^ Z.of_nat (S k)).
    { rewrite Z.pow_add_r by lia. change (2 ^ 1) with 2. lia. }
    assert (Hle : 2 ^ (Z.of_nat (S k) + 1) <= 2 ^ 24) by (apply Z.pow_le_mono_r; lia).
    apply Z.mod_divide in Hmod as [q Hq]; [|lia].
    rewrite IH.
    + cbn [after_events nreads dat_in]. rewrite after_events_compose.
      change (1 + nreads w)%nat with (S (nreads w)).
      cbn [samples msb_value concat map length]. rewrite !length_samples.
      subst d. f_equal; [lia|]. f_equal. lia.
    + lia.
    + assert (Hsplit : 2 ^ 24 = 2 ^ (Z.of_nat (S k) + 1) * 2 ^ (24 - (Z.of_nat (S k) + 1))).
      { rewrite <- Z.pow_add_r by lia. f_equal. lia. }
      assert (HP : 0 < 2 ^ Z.of_nat (S k)) by (apply Z.pow_pos_nonneg; lia).
      assert (HM : 0 < 2 ^ (24 - (Z.of_nat (S k) + 1))) by (apply Z.pow_pos_nonneg; lia).
      rewrite Hsplit, Hq, Hk2 in *.
      set (P := 2 ^ Z.of_nat (S k)) in *. set (M := 2 ^ (24 - (Z.of_nat (S k) + 1))) in *.
      assert (0 <= q) by nia.
      assert (q < M) by nia.
      assert (q * (2 * P) + P <= (M - 1) * (2 * P) + P) by nia.
      destruct d; cbn [level_bit]; nia.
    + replace (Z.of_nat k + 1) with (Z.of_nat (S k)) by lia.
      apply Z.mod_divide; [lia|].
      exists (2 * q + level_bit d). rewrite Hq, Hk2. ring.
Qed.

Lemma extra_pulses_step md w :
  extra_pulses clk md w =
  if 0 <? to_uint8 (md - 1)
  then extra_pulses clk (to_uint8 (md - 1)) (clock_pulse clk w)
  else clock_pulse clk w.
Proof.
  rewrite extra_pulses_equation_1.
  destruct (Z_lt_dec 0 (to_uint8 (md - 1))) as [H|H]; cbn.
  - apply Z.ltb_lt in H. now rewrite H.
  - apply Z.ltb_nlt in H. now rewrite H.
Qed.

Lemma clock_pulse_events w : clock_pulse clk w = after_events w 0 (plain_cycle clk).
Proof.
  unfold clock_pulse, digitalWrite, delayMicroseconds, emit, after_events, plain_cycle; cbn.
  f_equal. now rewrite <- !app_assoc.
Qed.

(** The second loop, entered with [mode = n + 1 <= 255]: exactly [n + 1]
    unsampled cycles. *)
Lemma extra_pulses_spec (n : nat) : forall w,
  (n < 255)%nat ->
  extra_pulses clk (Z.of_nat (S n)) w =
  after_events w 0 (concat (replicate (S n) (plain_cycle clk))).
Proof.
  induction n as [|n IH]; intros w Hn; rewrite extra_pulses_step.
  - cbn. rewrite clock_pulse_events. reflexivity.
  - assert (Hm : to_uint8 (Z.of_nat (S (S n)) - 1) = Z.of_nat (S n)).
    { unfold to_uint8, to_unsigned. rewrite Z.mod_small; lia. }
    rewrite Hm. assert (H0 : (0 <? Z.of_nat (S n)) = true) by (apply Z.ltb_lt; lia).
    rewrite H0. rewrite IH by lia.
    rewrite clock_pulse_events, after_events_compose.
    reflexivity.
Qed.

Lemma clock_pulses_app e1 e2 :
  clock_pulses clk (e1 ++ e2) = clock_pulses clk e1 + clock_pulses clk e2.
Proof. unfold clock_pulses. rewrite List.filter_app, length_app. lia. Qed.

Lemma clock_pulses_sampled ds :
  clock_pulses clk (concat (map (sampled_cycle clk data) ds)) = Z.of_nat (length ds).
Proof.
  induction ds as [|d ds IH]; [reflexivity|].
  cbn [map concat]. rewrite clock_pulses_app, IH.
  unfold clock_pulses at 1. cbn. rewrite Z.eqb_refl. cbn. lia.
Qed.

Lemma clock_pulses_plain n :
  clock_pulses clk (concat (replicate n (plain_cycle clk))) = Z.of_nat n.
Proof.
  induction n as [|n IH]; [reflexivity|].
  cbn [replicate concat]. rewrite clock_pulses_app, IH.
  unfold clock_pulses at 1. cbn. rewrite Z.eqb_refl. cbn. lia.
Qed.

End PulseTrain.

Lemma samples_nth line start n i :
  (i < n)%nat -> nth i (samples line start n) LOW = line (start + i)%nat.
Proof.
  revert start i. induction n as [|n IH]; intros start i Hi; [lia|].
  destruct i as [|i]; cbn [samples nth].
  - f_equal. lia.
  - rewrite IH by lia. f_equal. lia.
Qed.

(** Sample [i] of [ds] is bit [length ds - 1 - i] of [msb_value ds]. *)
Lemma msb_value_testbit ds : forall i,
  (i < length ds)%nat ->
  Z.testbit (msb_value ds) (Z.of_nat (length ds) - 1 - Z.of_nat i)
  = level_eqb (nth i ds LOW) HIGH.
Proof.
  induction ds as [|d ds IH]; intros i Hi; cbn [length] in *; [lia|].
  cbn [msb_value]. pose proof (msb_value_bound ds) as Hb.
  set (n := Z.of_nat (length ds)) in *.
  assert (Hn : 0 <= n) by lia.
  assert (Hp : 0 < 2 ^ n) by (apply Z.pow_pos_nonneg; lia).
  destruct i as [|i]; cbn [nth].
  - replace (Z.of_nat (S (length ds)) - 1 - Z.of_nat 0) with n by lia.
    rewrite Z.testbit_eqb by lia.
    rewrite Z.div_add_l, (Z.div_small (msb_value ds)) by lia.
    destruct d; reflexivity.
  - replace (Z.of_nat (S (length ds)) - 1 - Z.of_nat (S i)) with (n - 1 - Z.of_nat i) by lia.
    rewrite <- IH by lia. fold n.
    rewrite <- (Z.mod_pow2_bits_low (level_bit d * 2 ^ n + msb_value ds) n) by lia.
    rewrite Z.add_comm, Z.mod_add, Z.mod_small by lia. reflexivity.
Qed.

(** ** What one call of [HX711ReadData] and of [readNB] does *)

Lemma HX711ReadData_spec (o : MD_HX711) (e : Z) (w : world) :
  1 <= e <= 255 ->
  HX711ReadData o e w =
  (msb_value (samples (dat_in w (_pinDat o)) (nreads w) 24),
   after_events w 24
     (exchange (_pinClk o) (_pinDat o) (samples (dat_in w (_pinDat o)) (nreads w) 24) e)).
Proof.
  intros He. unfold HX711ReadData.
  change 0x800000 with (2 ^ Z.of_nat 23).
  rewrite read_bits_spec; [| lia | lia | reflexivity].
  replace e with (Z.of_nat (S (Z.to_nat (e - 1)))) at 1 by lia.
  rewrite extra_pulses_spec by lia.
  rewrite after_events_compose. unfold exchange.
  replace (S (Z.to_nat (e - 1))) with (Z.to_nat e) by lia.
  reflexivity.
Qed.

Lemma clock_pulses_exchange clk data ds e :
  0 <= e -> clock_pulses clk (exchange clk data ds e) = Z.of_nat (length ds) + e.
Proof.
  intros He. unfold exchange.
  rewrite clock_pulses_app, clock_pulses_sampled, clock_pulses_plain. lia.
Qed.

Lemma readNB_extras_range (o : MD_HX711) :
  readNB_extras o = 1 \/ readNB_extras o = 2 \/ readNB_extras o = 3.
Proof.
  unfold readNB_extras.
  destruct (_nextReadA o), (_mode o); cbn; auto.
Qed.

(** [readNB] in one equation. *)
Lemma readNB_spec (o : MD_HX711) (w : world) :
  let nextA := toggled o in
  let e := if negb nextA then 2 else if mode_eqb (_mode o) GAIN_128 then 1 else 3 in
  let ch := if _enableB o && nextA then CH_B else CH_A in
  let c := chan_get (_chanData o) ch in
  readNB o w =
  (mkHX (_pinClk o) (_pinDat o) (_enableB o) (_mode o) nextA
        (to_uint32 (_readCounter o + 1))
        (chan_set (_chanData o) ch
           (mkChan (sign_extend (pattern o w)) (tare c) (calib c) (range c)))
        (_myISRId o) false,
   after_events w 24 (readNB_events o w e)).
Proof.
  cbv zeta. unfold readNB.
  set (o1 := if _enableB (set_inISR true o) then _ else _).
  assert (Hfields :
    _pinClk o1 = _pinClk o /\ _pinDat o1 = _pinDat o /\ _enableB o1 = _enableB o /\
    _mode o1 = _mode o /\ _nextReadA o1 = toggled o /\
    _readCounter o1 = _readCounter o /\ _chanData o1 = _chanData o /\
    _myISRId o1 = _myISRId o).
  { subst o1. unfold toggled. cbn. destruct (_enableB o) eqn:E; cbn; rewrite ?E; tauto. }
  destruct Hfields as (Hclk & Hdat & HB & Hmode & Hnext & Hcnt & Hch & Hid).
  clearbody o1.
  rewrite HX711ReadData_spec by (destruct (readNB_extras_range o1) as [->|[->| ->]]; lia).
  unfold interrupts, noInterrupts.
  replace (emit EvNoInterrupts w) with (after_events w 0 [EvNoInterrupts])
    by reflexivity.
  match goal with
  | |- context [emit EvInterrupts ?x] =>
      replace (emit EvInterrupts x) with (after_events x 0 [EvInterrupts]) by reflexivity
  end.
  rewrite !after_events_compose.
  unfold read_channel, readNB_extras, pattern, readNB_events.
  cbn [nreads dat_in after_events].
  rewrite ?Hclk, ?Hdat, ?HB, ?Hmode, ?Hnext, ?Hcnt, ?Hch, ?Hid.
  unfold set_inISR, set_readCounter, set_chanData; cbn.
  rewrite ?Hclk, ?Hdat, ?HB, ?Hmode, ?Hnext, ?Hcnt, ?Hch, ?Hid.
  reflexivity.
Qed.

Lemma emitted_after_events w n evs : emitted w (after_events w n evs) = evs.
Proof. unfold emitted, after_events; cbn. now rewrite drop_app_length. Qed.

Lemma clock_pulses_readNB_events o w e :
  0 <= e -> clock_pulses (_pinClk o) (readNB_events o w e) = 24 + e.
Proof.
  intros He. unfold readNB_events.
  rewrite !clock_pulses_app, clock_pulses_exchange, length_samples by assumption.
  change (clock_pulses (_pinClk o) [EvNoInterrupts]) with 0.
  change (clock_pulses (_pinClk o) [EvInterrupts]) with 0.
  lia.
Qed.

(** C1.  For [extraPulses] in {1,2,3}, [HX711ReadData] emits 24 sampled
    clock cycles followed by exactly [extraPulses] unsampled ones (25, 26 or
    27 clock pulses in all) and returns the 24 sampled bits assembled most
    significant bit first, a value below [2 ^ 24] whose bit [23 - i] is the
    level sampled on pulse [i]; and its only caller, [readNB], always passes
    1, 2 or 3, so that a read emits 25 to 27 pulses between masking and
    unmasking the interrupts. *)
Theorem HX711ReadData_pulse_train (o : MD_HX711) (extraPulses : Z) (w : world) :
  extraPulses = 1 \/ extraPulses = 2 \/ extraPulses = 3 ->
  let clk := _pinClk o in
  let data := _pinDat o in
  let ds := samples (dat_in w data) (nreads w) 24 in
  let sampled := concat (map (sampled_cycle clk data) ds) in
  let unsampled := concat (replicate (Z.to_nat extraPulses) (plain_cycle clk)) in
  HX711ReadData o extraPulses w = (msb_value ds, after_events w 24 (sampled ++ unsampled))
  /\ length ds = 24%nat
  /\ clock_pulses clk sampled = 24
  /\ clock_pulses clk unsampled = extraPulses
  /\ clock_pulses clk (emitted w (snd (HX711ReadData o extraPulses w))) = 24 + extraPulses
  /\ 0 <= fst (HX711ReadData o extraPulses w) < 2 ^ 24
  /\ (forall i, (i < 24)%nat ->
        Z.testbit (fst (HX711ReadData o extraPulses w)) (23 - Z.of_nat i)
        = level_eqb (dat_in w data (nreads w + i)%nat) HIGH)
  /\ (forall o0 w0, exists e,
        (e = 1 \/ e = 2 \/ e = 3)
        /\ emitted w0 (snd (readNB o0 w0)) = readNB_events o0 w0 e
        /\ clock_pulses (_pinClk o0) (emitted w0 (snd (readNB o0 w0))) = 24 + e).
Proof.
  intros He. cbv zeta.
  assert (Hr : 1 <= extraPulses <= 255) by lia.
  rewrite (HX711ReadData_spec o extraPulses w Hr). cbn [fst snd].
  rewrite emitted_after_events, clock_pulses_exchange, length_samples by lia.
  rewrite clock_pulses_sampled, clock_pulses_plain, length_samples.
  repeat split; try lia.
  - apply (msb_value_bound (samples (dat_in w (_pinDat o)) (nreads w) 24)).
  - pose proof (msb_value_bound (samples (dat_in w (_pinDat o)) (nreads w) 24)) as Hb.
    rewrite length_samples in Hb. apply Hb.
  - intros i Hi.
    pose proof (msb_value_testbit (samples (dat_in w (_pinDat o)) (nreads w) 24) i) as Hbit.
    rewrite length_samples, samples_nth in Hbit by assumption.
    apply Hbit. assumption.
  - intros o0 w0. pose proof (readNB_spec o0 w0) as Hs. cbv zeta in Hs.
    rewrite Hs. cbn [snd]. rewrite emitted_after_events.
    set (e := if negb (toggled o0) then 2 else if mode_eqb (_mode o0) GAIN_128 then 1 else 3).
    assert (Hrange : e = 1 \/ e = 2 \/ e = 3)
      by (subst e; destruct (toggled o0), (_mode o0); cbn; auto).
    exists e. split; [assumption|]. split; [reflexivity|].
    apply clock_pulses_readNB_events. lia.
Qed.

Lemma HX711ReadData_pulse_train_witness :
  (1 = 1 \/ 1 = 2 \/ 1 = 3)
  /\ fst (HX711ReadData demo_scale 1 demo_world) = 0xAAAAAA
  /\ clock_pulses (_pinClk demo_scale)
       (emitted demo_world (snd (HX711ReadData demo_scale 1 demo_world))) = 25.
Proof.
  split; [left; reflexivity|].
  destruct (HX711ReadData_pulse_train demo_scale 1 demo_world (or_introl eq_refl))
    as (H1 & _ & _ & _ & H5 & _).
  rewrite H5, H1. split; reflexivity.
Defined.

(** ** Channel sequencing *)

Lemma readNB_state (o : MD_HX711) (w : world) :
  fst (readNB o w) =
  let ch := if _enableB o && toggled o then CH_B else CH_A in
  let c := chan_get (_chanData o) ch in
  mkHX (_pinClk o) (_pinDat o) (_enableB o) (_mode o) (toggled o)
       (to_uint32 (_readCounter o + 1))
       (chan_set (_chanData o) ch
          (mkChan (sign_extend (pattern o w)) (tare c) (calib c) (range c)))
       (_myISRId o) false.
Proof. pose proof (readNB_spec o w) as H. cbv zeta in *. now rewrite H. Qed.

Lemma observe_spec (o : MD_HX711) (w : world) :
  observe o w =
  {| obs_channel := if _enableB o && toggled o then CH_B else CH_A;
     obs_extras := if negb (toggled o) then 2 else gain_extras (_mode o);
     obs_gain := _mode o |}.
Proof.
  unfold observe. pose proof (readNB_spec o w) as H. cbv zeta in H. rewrite H.
  rewrite emitted_after_events. unfold read_channel. cbn [_enableB _nextReadA].
  rewrite clock_pulses_readNB_events
    by (destruct (toggled o), (_mode o); cbn; lia).
  f_equal. destruct (toggled o), (_mode o); cbn; lia.
Qed.

Lemma chan_get_set_same a ch c : chan_get (chan_set a ch c) ch = c.
Proof. now destruct ch. Qed.

Lemma chan_get_set_other a ch c : chan_get (chan_set a ch c) (other_channel ch) = chan_get a (other_channel ch).
Proof. now destruct ch. Qed.

Lemma run_length ops : forall o w, length (fst (run ops o w)) = count_reads ops.
Proof.
  induction ops as [|[|g] ops IH]; intros o w; cbn [run count_reads].
  - reflexivity.
  - specialize (IH (fst (readNB o w)) (snd (readNB o w))).
    destruct (run ops _ _) as [log r]. cbn in *. now rewrite IH.
  - apply IH.
Qed.

Lemma run_read ops o w :
  run (OpRead :: ops) o w =
  (observe o w :: fst (run ops (fst (readNB o w)) (snd (readNB o w))),
   snd (run ops (fst (readNB o w)) (snd (readNB o w)))).
Proof. cbn [run]. now destruct (run ops _ _). Qed.

(** Closes a goal about one or two reads by the cases of the flags of [o]. *)
Ltac by_flags o :=
  unfold read_channel, toggled; cbn;
  repeat match goal with
         | H : _enableB o = _ |- _ => rewrite H
         | H : _nextReadA o = _ |- _ => rewrite H
         end;
  destruct (_nextReadA o), (_enableB o), (_mode o); try discriminate; reflexivity.

(** C2.  With Channel B enabled, reads alternate between the channels
    (A first when the next-channel flag points at A), every read sends the
    extra pulses that select the channel of the read after it (2 for B, 1
    for A at gain 128, 3 for A at gain 64), and the sign-extended result
    goes into the record of the channel the read reports, the other record
    being left alone. *)
Theorem readNB_alternates_channels (ops : list op) (o : MD_HX711) (w : world) :
  _enableB o = true ->
  fst (run ops o w) = spec_alternating_log ops (_nextReadA o) (_mode o)
  /\ length (fst (run ops o w)) = count_reads ops
  /\ _enableB (fst (snd (run ops o w))) = true
  /\ (let o1 := fst (readNB o w) in
      let w1 := snd (readNB o w) in
      let o2 := fst (readNB o1 w1) in
      let ch := read_channel o1 in
      let c := chan_get (_chanData o) ch in
      ch = (if _nextReadA o then CH_A else CH_B)
      /\ read_channel o2 = other_channel ch
      /\ obs_extras (observe o w) = extras_selecting (read_channel o2) (_mode o)
      /\ chan_get (_chanData o1) ch =
         mkChan (sign_extend (pattern o w)) (tare c) (calib c) (range c)
      /\ chan_get (_chanData o1) (other_channel ch) =
         chan_get (_chanData o) (other_channel ch)).
Proof.
  intros HB. split; [|split; [apply run_length|split]].
  - revert o w HB. induction ops as [|[|g] ops IH]; intros o w HB.
    + reflexivity.
    + rewrite run_read. cbn [fst spec_alternating_log].
      rewrite observe_spec, IH by (rewrite readNB_state; cbn; assumption).
      rewrite readNB_state. by_flags o.
    + cbn [run spec_alternating_log]. rewrite IH by assumption. reflexivity.
  - revert o w HB. induction ops as [|[|g] ops IH]; intros o w HB.
    + assumption.
    + rewrite run_read. cbn [snd]. apply IH. rewrite readNB_state. assumption.
    + cbn [run]. apply IH. assumption.
  - cbv zeta. rewrite observe_spec, !readNB_state. repeat split; by_flags o.
Qed.

Lemma readNB_alternates_channels_witness :
  _enableB (enableChannelB true demo_scale) = true
  /\ map obs_channel
       (fst (run [OpRead; OpRead; OpSetGainA GAIN_64; OpRead; OpRead]
                 (set_nextReadA true (enableChannelB true demo_scale)) demo_world))
     = [CH_A; CH_B; CH_A; CH_B]
  /\ map obs_extras
       (fst (run [OpRead; OpRead; OpSetGainA GAIN_64; OpRead; OpRead]
                 (set_nextReadA true (enableChannelB true demo_scale)) demo_world))
     = [2; 1; 2; 3].
Proof.
  split; [reflexivity|].
  destruct (readNB_alternates_channels
              [OpRead; OpRead; OpSetGainA GAIN_64; OpRead; OpRead]
              (set_nextReadA true (enableChannelB true demo_scale)) demo_world eq_refl)
    as (H & _).
  rewrite H. split; reflexivity.
Defined.

Lemma reset_flags fuel o g w o' g' w' :
  reset fuel o g w = Some (o', g', w') ->
  _enableB o' = false /\ _mode o' = GAIN_128 /\ _nextReadA o' = true.
Proof.
  unfold reset, disableISR. intros H.
  destruct (isInterruptMode _); [destruct (wait_inISR _ _ _)|];
    inversion H; subst; cbn; auto.
Qed.

(** C3.  While Channel B is disabled and the next-channel flag points at A
    (the state [reset] leaves), every read reports Channel A, sends the
    extra pulses of the gain selected when it runs (1 for gain 128, 3 for
    gain 64, never 2), writes the sign-extended result into the record of
    Channel A and leaves the record of Channel B alone; the two flags are
    as before after the read and after a change of gain. *)
Theorem channelB_disabled_reads_A (ops : list op) (o : MD_HX711) (w : world) :
  _enableB o = false -> _nextReadA o = true ->
  Forall (fun b => obs_channel b = CH_A
                   /\ obs_extras b = gain_extras (obs_gain b)
                   /\ obs_extras b <> 2) (fst (run ops o w))
  /\ length (fst (run ops o w)) = count_reads ops
  /\ (let o' := fst (snd (run ops o w)) in
      _enableB o' = false /\ _nextReadA o' = true
      /\ chan_get (_chanData o') CH_B = chan_get (_chanData o) CH_B)
  /\ (let o1 := fst (readNB o w) in
      let c := chan_get (_chanData o) CH_A in
      _enableB o1 = false /\ _nextReadA o1 = true
      /\ read_channel o1 = CH_A
      /\ obs_extras (observe o w) = gain_extras (_mode o)
      /\ chan_get (_chanData o1) CH_A =
         mkChan (sign_extend (pattern o w)) (tare c) (calib c) (range c)
      /\ chan_get (_chanData o1) CH_B = chan_get (_chanData o) CH_B)
  /\ (forall g, _enableB (setGainA g o) = false /\ _nextReadA (setGainA g o) = true)
  /\ (forall fuel o0 g0 w0 o1 g1 w1,
        reset fuel o0 g0 w0 = Some (o1, g1, w1) ->
        _enableB o1 = false /\ _nextReadA o1 = true).
Proof.
  intros HB HA.
  assert (Hstep : forall o w, _enableB o = false -> _nextReadA o = true ->
            observe o w = mkObs CH_A (gain_extras (_mode o)) (_mode o)
            /\ fst (readNB o w) =
               mkHX (_pinClk o) (_pinDat o) false (_mode o) true
                 (to_uint32 (_readCounter o + 1))
                 (chan_set (_chanData o) CH_A
                    (mkChan (sign_extend (pattern o w))
                       (tare (chan_get (_chanData o) CH_A))
                       (calib (chan_get (_chanData o) CH_A))
                       (range (chan_get (_chanData o) CH_A))))
                 (_myISRId o) false).
  { clear. intros o w HB HA. rewrite observe_spec, readNB_state.
    unfold toggled. rewrite HB, HA. cbn. split; reflexivity. }
  split; [|split; [apply run_length|split; [|split; [|split]]]].
  - revert o w HB HA. induction ops as [|[|g] ops IH]; intros o w HB HA.
    + constructor.
    + rewrite run_read. cbn [fst]. destruct (Hstep o w HB HA) as [Ho Hs].
      constructor.
      * rewrite Ho. cbn. destruct (_mode o); cbn; repeat split; lia.
      * apply IH; rewrite Hs; reflexivity.
    + cbn [run]. apply IH; assumption.
  - cbv zeta. revert o w HB HA. induction ops as [|[|g] ops IH]; intros o w HB HA.
    + cbn. auto.
    + rewrite run_read. cbn [snd]. destruct (Hstep o w HB HA) as [_ Hs].
      destruct (IH (fst (readNB o w)) (snd (readNB o w))) as (H1 & H2 & H3);
        try (rewrite Hs; reflexivity).
      repeat split; try assumption. rewrite H3, Hs. reflexivity.
    + cbn [run]. apply (IH (setGainA g o) w); assumption.
  - cbv zeta. destruct (Hstep o w HB HA) as [Ho Hs]. rewrite Ho, Hs.
    cbn. repeat split; reflexivity.
  - intros g. cbn. auto.
  - intros fuel o0 g0 w0 o1 g1 w1 Hr.
    destruct (reset_flags _ _ _ _ _ _ _ Hr) as (? & ? & ?). auto.
Qed.

Lemma channelB_disabled_reads_A_witness :
  _enableB (set_nextReadA true demo_scale) = false
  /\ _nextReadA (set_nextReadA true demo_scale) = true
  /\ map obs_channel
       (fst (run [OpRead; OpSetGainA GAIN_64; OpRead; OpRead]
                 (set_nextReadA true demo_scale) demo_world))
     = [CH_A; CH_A; CH_A]
  /\ getRaw CH_A (fst (readNB (set_nextReadA true demo_scale) demo_world)) = - 0x555556.
Proof.
  split; [reflexivity|]. split; [reflexivity|].
  destruct (channelB_disabled_reads_A [OpRead; OpSetGainA GAIN_64; OpRead; OpRead]
              (set_nextReadA true demo_scale) demo_world eq_refl eq_refl)
    as (_ & _ & _ & (_ & _ & _ & _ & Hraw & _) & _).
  split; [reflexivity|].
  unfold getRaw. rewrite Hraw. reflexivity.
Defined.

(** What [read] returns when it returns. *)
Lemma read_cases fuel o w ch o' w' :
  read fuel o w = Some (ch, o', w') ->
  ch = read_channel o'
  /\ ((isInterruptMode o = true /\ o' = o /\ w' = w)
      \/ (isInterruptMode o = false
          /\ exists w1, wait_ready fuel o w = Some w1
                        /\ o' = fst (readNB o w1) /\ w' = snd (readNB o w1))).
Proof.
  unfold read. destruct (isInterruptMode o); cbn [negb]; intros H.
  - inversion H; subst. auto.
  - destruct (wait_ready fuel o w) as [w1|]; [|discriminate].
    destruct (readNB o w1) as [o1 w2] eqn:E. inversion H; subst.
    split; [reflexivity|]. right. split; [reflexivity|].
    exists w1. rewrite E. auto.
Qed.

(** [read] does not wait when DAT is low at the first poll. *)
Lemma read_ready fuel o w :
  isInterruptMode o = false -> dat_in w (_pinDat o) (nreads w) = LOW ->
  exists w1, read fuel o w =
             Some (read_channel (fst (readNB o w1)), fst (readNB o w1), snd (readNB o w1)).
Proof.
  intros Hm Hlow. unfold read. rewrite Hm. cbn [negb].
  assert (Hw : exists w1, wait_ready fuel o w = Some w1).
  { destruct fuel; cbn; unfold isReady, digitalRead; rewrite Hlow; cbn; eauto. }
  destruct Hw as [w1 ->]. exists w1. now destruct (readNB o w1).
Qed.

(** C10.  After Channel B was enabled, an odd number of reads made and
    Channel B disabled again, Channel B is off while the next-channel flag
    points at B.  In every such state a read leaves both flags as they
    are, sends 2 extra pulses, writes the sign-extended result into the
    record of Channel A, leaves the record of Channel B alone and reports
    Channel A; the blocking [read] reports Channel A as well. *)
Theorem stale_flag_after_disabling_B (k : nat) (o : MD_HX711) (w : world) :
  _nextReadA o = true ->
  let o1 := fst (snd (run (replicate (2 * k + 1) OpRead) (enableChannelB true o) w)) in
  let o2 := enableChannelB false o1 in
  (_enableB o2 = false /\ _nextReadA o2 = false)
  /\ (forall o3 w3, _enableB o3 = false -> _nextReadA o3 = false ->
      let o4 := fst (readNB o3 w3) in
      let c := chan_get (_chanData o3) CH_A in
      _enableB o4 = false /\ _nextReadA o4 = false
      /\ obs_extras (observe o3 w3) = 2
      /\ obs_channel (observe o3 w3) = CH_A
      /\ chan_get (_chanData o4) CH_A =
         mkChan (sign_extend (pattern o3 w3)) (tare c) (calib c) (range c)
      /\ chan_get (_chanData o4) CH_B = chan_get (_chanData o3) CH_B
      /\ (forall fuel ch o5 w5, read fuel o3 w3 = Some (ch, o5, w5) ->
            ch = CH_A /\ _enableB o5 = false /\ _nextReadA o5 = false)
      /\ (isInterruptMode o3 = true \/ dat_in w3 (_pinDat o3) (nreads w3) = LOW ->
          forall fuel, exists o5 w5, read fuel o3 w3 = Some (CH_A, o5, w5))).
Proof.
  intros HA. cbv zeta. split.
  - assert (Hodd : forall n o w, _enableB o = true ->
              _nextReadA (fst (snd (run (replicate n OpRead) o w))) =
              (if Nat.even n then _nextReadA o else negb (_nextReadA o))).
    { clear. induction n as [|n IH]; intros o w HB; [reflexivity|].
      rewrite replicate_S, run_read. cbn [snd].
      rewrite IH by (rewrite readNB_state; assumption).
      rewrite readNB_state. cbn [_nextReadA]. unfold toggled. rewrite HB.
      rewrite Nat.even_succ, <- Nat.negb_even.
      destruct (Nat.even n), (_nextReadA o); reflexivity. }
    split; [reflexivity|]. cbn [enableChannelB set_enableB _nextReadA].
    rewrite Hodd by reflexivity. cbn [enableChannelB set_enableB _nextReadA].
    rewrite HA. replace (2 * k + 1)%nat with (S (2 * k)) by lia.
    rewrite Nat.even_succ, <- Nat.negb_even, Nat.even_mul. reflexivity.
  - intros o3 w3 HB3 HA3.
    rewrite observe_spec, readNB_state.
    repeat split; try by_flags o3.
    + apply read_cases in H as [-> [(_ & -> & _) | (_ & w1 & _ & -> & _)]];
        rewrite ?readNB_state; by_flags o3.
    + apply read_cases in H as [_ [(_ & -> & _) | (_ & w1 & _ & -> & _)]];
        rewrite ?readNB_state; cbn; assumption.
    + apply read_cases in H as [_ [(_ & -> & _) | (_ & w1 & _ & -> & _)]];
        rewrite ?readNB_state; try assumption; by_flags o3.
    + intros Hready fuel.
      destruct (isInterruptMode o3) eqn:Ei.
      * exists o3, w3. unfold read. rewrite Ei. cbn [negb]. f_equal. f_equal. f_equal.
        by_flags o3.
      * destruct Hready as [?|Hlow]; [discriminate|].
        destruct (read_ready fuel o3 w3 Ei Hlow) as [w1 ->].
        eexists _, _. f_equal. f_equal. f_equal. rewrite readNB_state. by_flags o3.
Qed.

Lemma stale_flag_after_disabling_B_witness :
  _nextReadA (set_nextReadA true demo_scale) = true
  /\ _nextReadA
       (enableChannelB false
          (fst (snd (run (replicate (2 * 1 + 1) OpRead)
                         (enableChannelB true (set_nextReadA true demo_scale))
                         demo_world)))) = false.
Proof.
  split; [reflexivity|].
  exact (proj2 (proj1 (stale_flag_after_disabling_B 1 (set_nextReadA true demo_scale)
                         demo_world eq_refl))).
Defined.

(** ** Sign extension *)

Lemma land_high_byte (v : Z) : 0 <= v < 2 ^ 24 -> Z.land v 0xff000000 = 0.
Proof.
  intros Hv. apply Z.bits_inj'. intros n Hn.
  rewrite Z.land_spec, Z.bits_0.
  destruct (Z_lt_le_dec n 24) as [Hlt|Hge].
  - change 0xff000000 with (255 * 2 ^ 24).
    rewrite (Z.mul_pow2_bits_low 255 24 n Hlt). apply andb_false_r.
  - rewrite (testbit_above v n 24) by assumption. reflexivity.
Qed.

(** C4.  On a 24-bit pattern [v] the sign extension of [readNB] gives
    [v - 2 ^ 24], a negative number, when bit 23 is set, and [v] itself,
    which is not negative, when bit 23 is clear. *)
Theorem sign_extend_twos_complement (v : Z) :
  0 <= v < 2 ^ 24 ->
  (Z.testbit v 23 = true -> sign_extend v = v - 2 ^ 24 /\ sign_extend v < 0)
  /\ (Z.testbit v 23 = false -> sign_extend v = v /\ 0 <= sign_extend v)
  /\ - 2 ^ 23 <= sign_extend v < 2 ^ 23.
Proof.
  intros Hv. unfold sign_extend.
  change 0x800000 with (2 ^ 23). rewrite land_pow2 by lia.
  assert (Hbit : Z.testbit v 23 = true <-> 2 ^ 23 <= v).
  { split; intros H.
    - destruct (Z_lt_le_dec v (2 ^ 23)) as [Hlt|]; [|assumption].
      rewrite (testbit_above v 23 23) in H by lia. discriminate.
    - rewrite Z.testbit_true by lia.
      assert (Hq : v / 2 ^ 23 = 1).
      { symmetry. apply (Z.div_unique v (2 ^ 23) 1 (v - 2 ^ 23)); lia. }
      rewrite Hq. reflexivity. }
  destruct (Z.testbit v 23) eqn:E; cbn [negb Z.eqb].
  - assert (2 ^ 23 <= v) by (apply Hbit; reflexivity).
    change (2 ^ 23 =? 0) with false. cbn [negb].
    rewrite to_uint32_small by lia.
    rewrite lor_disjoint by (apply land_high_byte; assumption).
    unfold to_int32, to_signed. change (32 - 1) with 31.
    replace (v + 0xff000000 + 2 ^ 31) with (v - 2 ^ 24 + 2 ^ 31 + 1 * 2 ^ 32) by lia.
    rewrite Z.mod_add by lia. rewrite Z.mod_small by lia.
    repeat split; try discriminate; lia.
  - assert (v < 2 ^ 23).
    { destruct (Z_lt_le_dec v (2 ^ 23)) as [|Hge]; [assumption|].
      apply Hbit in Hge. discriminate. }
    repeat split; try discriminate; lia.
Qed.

Lemma sign_extend_twos_complement_witness :
  0 <= 0xAAAAAA < 2 ^ 24
  /\ Z.testbit 0xAAAAAA 23 = true
  /\ sign_extend 0xAAAAAA = 0xAAAAAA - 2 ^ 24.
Proof.
  split; [lia|]. split; [reflexivity|].
  exact (proj1 (proj1 (sign_extend_twos_complement 0xAAAAAA ltac:(lia)) eq_refl)).
Defined.

(** ** Tare and calibration math *)

Lemma to_int32_congruent (z : Z) : (to_int32 z - z) mod 2 ^ 32 = 0.
Proof.
  unfold to_int32, to_signed. change (32 - 1) with 31.
  rewrite (Z.mod_eq (z + 2 ^ 31) (2 ^ 32)) by lia.
  replace (z + 2 ^ 31 - 2 ^ 32 * ((z + 2 ^ 31) / 2 ^ 32) - 2 ^ 31 - z)
    with (- ((z + 2 ^ 31) / 2 ^ 32) * 2 ^ 32) by lia.
  apply Z.mod_mul. lia.
Qed.

Lemma to_int32_fixpoint (z : Z) : to_int32 z = z <-> is_int32 z.
Proof.
  split; intros H.
  - rewrite <- H. apply to_int32_range.
  - now apply to_int32_small.
Qed.

(** The claim C9 as it is written fails where the difference leaves the
    32-bit range: with raw 0 and tare [INT32_MIN], set through
    [setZeroTare], [getTared] returns [- 2 ^ 31], not [2 ^ 31]. *)
Lemma getTared_overflow_counterexample :
  let o := setZeroTare INT32_MIN CH_A demo_scale in
  is_int32 (getRaw CH_A o) /\ is_int32 (getZeroTare CH_A o)
  /\ getRaw CH_A o - getZeroTare CH_A o = 2 ^ 31
  /\ getTared CH_A o = - 2 ^ 31
  /\ getTared CH_A o <> getRaw CH_A o - getZeroTare CH_A o.
Proof.
  cbv zeta. vm_compute. repeat split; try discriminate; intros H; discriminate.
Qed.

(** C9, amended.  For stored 32-bit values, negative ones included,
    [getTared] returns [raw - tare] reduced to 32 bits two's complement: it
    is congruent to the difference modulo [2 ^ 32], and equal to it exactly
    when the difference is itself a 32-bit value. *)
Theorem getTared_wraps (ch : channel_t) (o : MD_HX711) :
  is_int32 (getRaw ch o) -> is_int32 (getZeroTare ch o) ->
  is_int32 (getTared ch o)
  /\ (getTared ch o - (getRaw ch o - getZeroTare ch o)) mod 2 ^ 32 = 0
  /\ (getTared ch o = getRaw ch o - getZeroTare ch o
      <-> is_int32 (getRaw ch o - getZeroTare ch o)).
Proof.
  intros _ _. unfold getTared, getRaw, getZeroTare.
  split; [apply to_int32_range|]. split; [apply to_int32_congruent|].
  apply to_int32_fixpoint.
Qed.

Lemma getTared_wraps_witness :
  let o := setZeroTare (-250) CH_B demo_scale in
  is_int32 (getRaw CH_B o) /\ is_int32 (getZeroTare CH_B o)
  /\ getTared CH_B o = 250.
Proof.
  cbv zeta.
  assert (H1 : is_int32 (getRaw CH_B (setZeroTare (-250) CH_B demo_scale)))
    by (vm_compute; split; discriminate).
  assert (H2 : is_int32 (getZeroTare CH_B (setZeroTare (-250) CH_B demo_scale)))
    by (vm_compute; split; discriminate).
  split; [exact H1|]. split; [exact H2|].
  rewrite (proj2 (proj2 (proj2 (getTared_wraps CH_B _ H1 H2))));
    [reflexivity | vm_compute; split; discriminate].
Defined.

(** The claim C8 as it is written fails in its "only if" half: a result
    that is not a number also comes out of the floating-point expression.
    Tare [2 ^ 24] and calibration point [2 ^ 24 + 1] differ as integers and
    agree once converted to [float], so with raw 0 and range 0.0 the
    expression is [-0.0 / 0.0]; and an infinite range gives [inf * 0.0]
    when the raw value sits on the tare. *)
Lemma getCalibrated_nan_counterexample :
  let o := setCalibration 16777217 (S754_zero false) CH_A
             (setZeroTare 16777216 CH_A demo_scale) in
  let o' := setCalibration 1 (S754_infinity false) CH_A demo_scale in
  (getCalibration CH_A o <> getZeroTare CH_A o /\ getCalibrated CH_A o = NAN)
  /\ (getCalibration CH_A o' <> getZeroTare CH_A o' /\ getCalibrated CH_A o' = NAN).
Proof.
  cbv zeta. repeat split; try (vm_compute; reflexivity); vm_compute; discriminate.
Qed.

(** C8, amended.  For stored 32-bit values, [getCalibrated] returns
    not-a-number whenever [calib = tare], and otherwise the binary32 result
    of [range * (float(raw) - float(tare)) / (float(calib) - float(tare))];
    it is a total function, so nothing is raised in either case. *)
Theorem getCalibrated_guarded (ch : channel_t) (o : MD_HX711) :
  is_int32 (getCalibration ch o) -> is_int32 (getZeroTare ch o) ->
  let c := chan_get (_chanData o) ch in
  (calib c = tare c -> getCalibrated ch o = NAN)
  /\ (calib c <> tare c ->
      getCalibrated ch o =
      fdiv (fmul (range c) (fsub (float_of_int32 (raw c)) (float_of_int32 (tare c))))
           (fsub (float_of_int32 (calib c)) (float_of_int32 (tare c)))).
Proof.
  unfold getCalibration, getZeroTare, is_int32, INT32_MIN, INT32_MAX, getCalibrated.
  intros Hc Ht. cbv zeta. split; intros H.
  - rewrite H, Z.sub_diag. reflexivity.
  - destruct (Z.eqb_spec (to_int32 (calib (chan_get (_chanData o) ch)
                                      - tare (chan_get (_chanData o) ch))) 0) as [E|E];
      [|reflexivity].
    exfalso. apply H.
    pose proof (to_int32_congruent (calib (chan_get (_chanData o) ch)
                                    - tare (chan_get (_chanData o) ch))) as Hm.
    rewrite E in Hm. apply Z.mod_divide in Hm; [|lia]. destruct Hm as [q Hq]. lia.
Qed.

Lemma getCalibrated_guarded_witness :
  let o := setCalibration 2000 (binary_normalize prec32 emax32 5 0 false) CH_A
             (set_chanData (mkArr (mkChan 1000 0 0 (S754_zero false)) zero_channel)
                demo_scale) in
  is_int32 (getCalibration CH_A o) /\ is_int32 (getZeroTare CH_A o)
  /\ getCalibrated CH_A o = binary_normalize prec32 emax32 5 (-1) false.
Proof.
  cbv zeta.
  set (o := setCalibration 2000 _ CH_A _).
  assert (H1 : is_int32 (getCalibration CH_A o)) by (vm_compute; split; discriminate).
  assert (H2 : is_int32 (getZeroTare CH_A o)) by (vm_compute; split; discriminate).
  split; [exact H1|]. split; [exact H2|].
  rewrite (proj2 (getCalibrated_guarded CH_A o H1 H2)); [reflexivity | discriminate].
Defined.

(** ** The registry: attaching *)

Lemma alloc_slot_step this i o g :
  alloc_slot this i o g =
  if i <? MAX_INSTANCE then
    if slot_free g i then
      (set_myISRId i o,
       {| ISRUsed := to_uint8 (Z.lor (ISRUsed g) (_BV i));
          myInstance := <[Z.to_nat i := Some this]> (myInstance g) |})
    else alloc_slot this (i + 1) o g
  else (o, g).
Proof.
  rewrite alloc_slot_equation_1.
  destruct (Z_lt_dec i MAX_INSTANCE) as [H|H]; cbn.
  - rewrite (proj2 (Z.ltb_lt i MAX_INSTANCE) H). destruct (slot_free g i); reflexivity.
  - rewrite (proj2 (Z.ltb_nlt i MAX_INSTANCE) H). reflexivity.
Qed.

(** The loop of [enableISR] takes the lowest free slot, or changes nothing
    when the four slots are taken. *)
Lemma alloc_slot_spec this o g :
  (exists i, 0 <= i < MAX_INSTANCE
     /\ slot_free g i = true
     /\ (forall j, 0 <= j < i -> slot_free g j = false)
     /\ alloc_slot this 0 o g =
        (set_myISRId i o,
         {| ISRUsed := to_uint8 (Z.lor (ISRUsed g) (_BV i));
            myInstance := <[Z.to_nat i := Some this]> (myInstance g) |}))
  \/ ((forall j, 0 <= j < MAX_INSTANCE -> slot_free g j = false)
      /\ alloc_slot this 0 o g = (o, g)).
Proof.
  unfold MAX_INSTANCE.
  assert (Hcase : forall j, 0 <= j < 4 -> j = 0 \/ j = 1 \/ j = 2 \/ j = 3) by lia.
  rewrite (alloc_slot_step this 0), (alloc_slot_step this (0 + 1)),
    (alloc_slot_step this (0 + 1 + 1)), (alloc_slot_step this (0 + 1 + 1 + 1)),
    (alloc_slot_step this (0 + 1 + 1 + 1 + 1)).
  change (0 + 1 + 1 + 1 + 1) with 4. change (0 + 1 + 1 + 1) with 3.
  change (0 + 1 + 1) with 2. change (0 + 1) with 1.
  change (0 <? MAX_INSTANCE) with true. change (1 <? MAX_INSTANCE) with true.
  change (2 <? MAX_INSTANCE) with true. change (3 <? MAX_INSTANCE) with true.
  change (4 <? MAX_INSTANCE) with false. cbv iota.
  destruct (slot_free g 0) eqn:E0.
  { left. exists 0. repeat split; try lia; try assumption. }
  destruct (slot_free g 1) eqn:E1.
  { left. exists 1. repeat split; try lia; try assumption.
    intros j Hj. replace j with 0 by lia. assumption. }
  destruct (slot_free g 2) eqn:E2.
  { left. exists 2. repeat split; try lia; try assumption.
    intros j Hj. assert (j = 0 \/ j = 1) as [-> | ->] by lia; assumption. }
  destruct (slot_free g 3) eqn:E3.
  { left. exists 3. repeat split; try lia; try assumption.
    intros j Hj. assert (j = 0 \/ j = 1 \/ j = 2) as [-> | [-> | ->]] by lia; assumption. }
  right. split; [|reflexivity].
  intros j Hj. destruct (Hcase j Hj) as [-> | [-> | [-> | ->]]]; assumption.
Qed.

Lemma ISRfunc_lookup (i : Z) :
  0 <= i < MAX_INSTANCE ->
  exists f, ISRfunc !! Z.to_nat i = Some f /\ isr_slot f = Z.to_nat i.
Proof.
  unfold MAX_INSTANCE. intros Hi.
  assert (i = 0 \/ i = 1 \/ i = 2 \/ i = 3) as [-> | [-> | [-> | ->]]] by lia;
    cbn; eauto.
Qed.

Lemma testbit_set_slot (u i : Z) :
  0 <= i < 8 -> Z.testbit (to_uint8 (Z.lor u (_BV i))) i = true.
Proof.
  intros Hi. unfold to_uint8, to_unsigned, _BV.
  rewrite Z.mod_pow2_bits_low by lia.
  rewrite Z.lor_spec, Z.shiftl_1_l, Z.pow2_bits_true by lia.
  apply orb_true_r.
Qed.

Lemma testbit_set_slot_other (u i j : Z) :
  0 <= i -> 0 <= j < 8 -> i <> j ->
  Z.testbit (to_uint8 (Z.lor u (_BV i))) j = Z.testbit u j.
Proof.
  intros Hi Hj Hne. unfold to_uint8, to_unsigned, _BV.
  rewrite Z.mod_pow2_bits_low by lia.
  rewrite Z.lor_spec, Z.shiftl_1_l, Z.pow2_bits_false by lia.
  apply orb_false_r.
Qed.

Lemma slot_free_testbit g i : 0 <= i -> slot_free g i = negb (Z.testbit (ISRUsed g) i).
Proof.
  intros Hi. unfold slot_free, _BV. rewrite Z.shiftl_1_l, land_pow2 by assumption.
  destruct (Z.testbit (ISRUsed g) i); cbn; [|reflexivity].
  apply Z.eqb_neq. pose proof (Z.pow_pos_nonneg 2 i). lia.
Qed.

(** What [enableISR] returns, case by case. *)
Lemma enableISR_cases this o g w :
  let irq := to_int8 (digitalPinToInterrupt (_pinDat o) w) in
  (isInterruptMode o = true /\ enableISR this o g w = Some (false, o, g, w))
  \/ (isInterruptMode o = false /\ irq = NOT_AN_INTERRUPT
      /\ enableISR this o g w = Some (false, o, g, w))
  \/ (isInterruptMode o = false /\ irq <> NOT_AN_INTERRUPT
      /\ (forall j, 0 <= j < MAX_INSTANCE -> slot_free g j = false)
      /\ enableISR this o g w = Some (false, o, g, w))
  \/ (isInterruptMode o = false /\ irq <> NOT_AN_INTERRUPT
      /\ exists i f, 0 <= i < MAX_INSTANCE
           /\ slot_free g i = true
           /\ (forall j, 0 <= j < i -> slot_free g j = false)
           /\ ISRfunc !! Z.to_nat i = Some f /\ isr_slot f = Z.to_nat i
           /\ enableISR this o g w =
              Some (true, set_myISRId i o,
                    {| ISRUsed := to_uint8 (Z.lor (ISRUsed g) (_BV i));
                       myInstance := <[Z.to_nat i := Some this]> (myInstance g) |},
                    after_events w 0
                      [EvAttachInterrupt irq f TRIG_LOW;
                       EvDigitalWrite (_pinClk o) HIGH;
                       EvDelayMicroseconds 64;
                       EvDigitalWrite (_pinClk o) LOW])).
Proof.
  cbv zeta. unfold enableISR.
  destruct (isInterruptMode o) eqn:Emode; [left; auto|right].
  destruct (Z.eqb_spec (to_int8 (digitalPinToInterrupt (_pinDat o) w)) NOT_AN_INTERRUPT)
    as [Eirq|Eirq]; cbn [negb]; [left; auto|right].
  assert (Hid : _myISRId o = UINT8_MAX).
  { unfold isInterruptMode in Emode. apply negb_false_iff in Emode. now apply Z.eqb_eq. }
  destruct (alloc_slot_spec this o g) as [(i & Hi & Hfree & Hlow & ->) | [Hfull ->]].
  - right. repeat split; try assumption.
    destruct (ISRfunc_lookup i Hi) as (f & Hf & Hslot).
    exists i, f. repeat split; try assumption; try (unfold MAX_INSTANCE in *; lia).
    cbn [_myISRId set_myISRId].
    assert (Hne : (i =? UINT8_MAX) = false)
      by (apply Z.eqb_neq; unfold MAX_INSTANCE, UINT8_MAX in *; lia).
    rewrite Hne, Hf. cbn [negb].
    unfold attachInterrupt, powerDown, powerUp, digitalWrite, delayMicroseconds, emit,
      after_events. cbn. rewrite <- !app_assoc. reflexivity.
  - left. rewrite Hid, Z.eqb_refl. cbn. auto.
Qed.

(** The claim C5 as it is written fails on the trigger: [enableISR] passes
    [LOW] to [attachInterrupt], so the interrupt is registered for the low
    level of the data pin and not for its falling edge. *)
Lemma attach_trigger_counterexample :
  exists o' g' w',
    enableInterruptMode 0 1%positive true demo_scale registry_init demo_world
    = Some (true, o', g', w')
    /\ emitted demo_world w' = EvAttachInterrupt 0 globalISR0 TRIG_LOW :: power_cycle 4
    /\ ~ (exists irq f, In (EvAttachInterrupt irq f TRIG_FALLING) (trace w')).
Proof.
  eexists _, _, _. split; [vm_compute; reflexivity|]. split; [reflexivity|].
  intros (irq & f & Hin). cbn in Hin.
  repeat (destruct Hin as [Hin|Hin]; [discriminate|]). exact Hin.
Qed.

(** C5, amended.  A successful [enableInterruptMode(true)] records the
    instance at the lowest free slot of the four, sets the occupancy bit of
    that slot and no other, registers the trampoline of that slot with
    [attachInterrupt] on the interrupt of the data pin with trigger [LOW]
    (the low level of the pin), then powers the device down and up, and
    returns true; the trampoline registered runs [readNB] on this very
    instance. *)
Theorem attach_takes_lowest_free_slot
    (fuel : nat) (this : addr) (o : MD_HX711) (g : registry) (w : world)
    (o' : MD_HX711) (g' : registry) (w' : world) :
  enableInterruptMode fuel this true o g w = Some (true, o', g', w') ->
  exists i f,
    0 <= i < MAX_INSTANCE
    /\ slot_free g i = true
    /\ (forall j, 0 <= j < i -> slot_free g j = false)
    /\ o' = set_myISRId i o
    /\ isInterruptMode o' = true
    /\ myInstance g' = <[Z.to_nat i := Some this]> (myInstance g)
    /\ slot_free g' i = false
    /\ (forall j, 0 <= j < 8 -> j <> i ->
          Z.testbit (ISRUsed g') j = Z.testbit (ISRUsed g) j)
    /\ ISRfunc !! Z.to_nat i = Some f
    /\ isr_slot f = Z.to_nat i
    /\ digitalPinToInterrupt (_pinDat o) w <> NOT_AN_INTERRUPT
    /\ w' = after_events w 0
              (EvAttachInterrupt (to_int8 (digitalPinToInterrupt (_pinDat o) w)) f TRIG_LOW
               :: power_cycle (_pinClk o))
    /\ (length (myInstance g) = 4%nat ->
        myInstance g' !! isr_slot f = Some (Some this)
        /\ forall heap,
             run_isr f (mkSys (<[this := o']> heap) g' w')
             = Some (mkSys (<[this := fst (readNB o' w')]> heap) g' (snd (readNB o' w')))).
Proof.
  unfold enableInterruptMode. intros H.
  destruct (enableISR_cases this o g w) as
    [[_ E] | [(_ & _ & E) | [(_ & _ & _ & E) | (Emode & Eirq & i & f & Hi & Hfree & Hlow & Hf & Hslot & E)]]];
    rewrite E in H; try discriminate.
  inversion H; subst o' g' w'; clear H.
  exists i, f. unfold MAX_INSTANCE in *.
  repeat split; try assumption; try lia.
  - unfold isInterruptMode, UINT8_MAX. cbn.
    apply negb_true_iff, Z.eqb_neq. lia.
  - rewrite slot_free_testbit by lia. cbn [ISRUsed].
    rewrite testbit_set_slot by lia. reflexivity.
  - intros j Hj Hne. cbn [ISRUsed]. apply testbit_set_slot_other; lia.
  - intros Hirq. apply Eirq. rewrite Hirq. reflexivity.
  - cbn [myInstance]. rewrite Hslot. apply list_lookup_insert_eq. lia.
  - intros heap. unfold run_isr. cbn [statics myInstance objs hw].
    rewrite Hslot, list_lookup_insert_eq by lia.
    rewrite lookup_insert_eq.
    destruct (readNB _ _) as [o1 w1]. cbn [fst snd].
    rewrite insert_insert_eq. reflexivity.
Qed.

Lemma attach_takes_lowest_free_slot_witness :
  exists o' g' w',
    enableInterruptMode 0 1%positive true demo_scale registry_init demo_world
    = Some (true, o', g', w')
    /\ isInterruptMode o' = true /\ _myISRId o' = 0 /\ ISRUsed g' = 1.
Proof.
  eexists _, _, _.
  assert (E : enableInterruptMode 0 1%positive true demo_scale registry_init demo_world
              = Some (true, set_myISRId 0 demo_scale,
                      {| ISRUsed := 1; myInstance := [Some 1%positive; None; None; None] |},
                      after_events demo_world 0
                        (EvAttachInterrupt 0 globalISR0 TRIG_LOW :: power_cycle 4)))
    by (vm_compute; reflexivity).
  split; [exact E|].
  destruct (attach_takes_lowest_free_slot _ _ _ _ _ _ _ _ E)
    as (i & f & _ & _ & _ & _ & Hmode & _).
  split; [exact Hmode|]. split; reflexivity.
Defined.

(** C6.  [enableInterruptMode(true)] always returns; it returns false in
    exactly three cases (the instance is attached already, its data pin has
    no interrupt, the four slots are taken) and then changes nothing: not
    the instance, not the slot table, not the occupancy bits, not the
    hardware, and so no other instance either. *)
Theorem attach_fails_without_change
    (fuel : nat) (this : addr) (o : MD_HX711) (g : registry) (w : world) :
  exists b o' g' w',
    enableInterruptMode fuel this true o g w = Some (b, o', g', w')
    /\ (b = false <->
        isInterruptMode o = true
        \/ to_int8 (digitalPinToInterrupt (_pinDat o) w) = NOT_AN_INTERRUPT
        \/ (forall j, 0 <= j < MAX_INSTANCE -> slot_free g j = false))
    /\ (b = false -> o' = o /\ g' = g /\ w' = w)
    /\ (b = false ->
        forall s, objs s !! this = Some o -> statics s = g -> hw s = w ->
                  sys_enableInterruptMode fuel this true s = Some (false, s)).
Proof.
  unfold enableInterruptMode.
  destruct (enableISR_cases this o g w) as
    [[Emode E] | [(Emode & Eirq & E) | [(Emode & Eirq & Hfull & E)
      | (Emode & Eirq & i & f & Hi & Hfree & Hlow & Hf & Hslot & E)]]].
  1-3: exists false, o, g, w; split; [exact E|]; split; [tauto|]; split; [auto|];
       intros _ s Ho Hg Hw; unfold sys_enableInterruptMode, enableInterruptMode;
       rewrite Ho, Hg, Hw, E; rewrite insert_id by assumption;
       destruct s; cbn in *; subst; reflexivity.
  eexists true, _, _, _. split; [exact E|].
  split; [|split; intros; discriminate].
  split; [discriminate|]. intros [H | [H | H]].
  - congruence.
  - contradiction.
  - rewrite (H i Hi) in Hfree. discriminate.
Qed.

(** Four scales attach, in slots 0 to 3; the fifth is refused and the
    whole system stays as it was. *)
Lemma fifth_attach_refused :
  exists s4,
    attach_each [1; 2; 3; 4]%positive five_scales = Some ([true; true; true; true], s4)
    /\ ISRUsed (statics s4) = 15
    /\ myInstance (statics s4) = [Some 1; Some 2; Some 3; Some 4]%positive
    /\ (_myISRId <$> objs s4 !! 1%positive) = Some 0
    /\ (_myISRId <$> objs s4 !! 4%positive) = Some 3
    /\ sys_enableInterruptMode 0 5%positive true s4 = Some (false, s4).
Proof.
  destruct (attach_each [1; 2; 3; 4]%positive five_scales) as [[bs s4]|] eqn:E;
    vm_compute in E; [|discriminate].
  inversion E; subst bs s4; clear E.
  eexists. split; [reflexivity|].
  split; [reflexivity|]. split; [reflexivity|].
  split; [vm_compute; reflexivity|]. split; [vm_compute; reflexivity|].
  match goal with |- sys_enableInterruptMode _ _ _ ?s = _ => set (s4 := s) end.
  destruct (attach_fails_without_change 0 5%positive (construct 8 20 zero_storage)
              (statics s4) (hw s4)) as (b & o' & g' & w' & _ & Hiff & _ & Hsys).
  assert (Hb : b = false).
  { apply Hiff. right. right. intros j Hj. unfold MAX_INSTANCE in Hj.
    assert (j = 0 \/ j = 1 \/ j = 2 \/ j = 3) as [-> | [-> | [-> | ->]]] by lia;
      reflexivity. }
  apply (Hsys Hb s4); [vm_compute; reflexivity | reflexivity | reflexivity].
Defined.

(** ** The registry: detaching, and [reset] *)

Lemma wait_inISR_clear fuel o w : _inISR o = false -> wait_inISR fuel o w = Some w.
Proof. intros H. destruct fuel; cbn; now rewrite H. Qed.

Lemma wait_inISR_stuck fuel o : forall w, _inISR o = true -> wait_inISR fuel o w = None.
Proof.
  induction fuel as [|fuel IH]; intros w H; cbn; rewrite H; [reflexivity|].
  now apply IH.
Qed.

Lemma testbit_clear_slot (u i : Z) :
  0 <= i -> Z.testbit (to_uint8 (Z.land u (Z.lnot (_BV i)))) i = false.
Proof.
  intros Hi. unfold to_uint8, to_unsigned, _BV.
  destruct (Z_lt_le_dec i 8) as [Hlt|Hge].
  - rewrite Z.mod_pow2_bits_low by lia.
    rewrite Z.land_spec, Z.lnot_spec, Z.shiftl_1_l, Z.pow2_bits_true by lia.
    apply andb_false_r.
  - rewrite Z.mod_pow2_bits_high by lia. reflexivity.
Qed.

Lemma testbit_clear_slot_other (u i j : Z) :
  0 <= i -> 0 <= j < 8 -> i <> j ->
  Z.testbit (to_uint8 (Z.land u (Z.lnot (_BV i)))) j = Z.testbit u j.
Proof.
  intros Hi Hj Hne. unfold to_uint8, to_unsigned, _BV.
  rewrite Z.mod_pow2_bits_low by lia.
  rewrite Z.land_spec, Z.lnot_spec, Z.shiftl_1_l, Z.pow2_bits_false by lia.
  apply andb_true_r.
Qed.

(** What [disableISR] does, case by case. *)
Lemma disableISR_cases fuel o g w :
  (isInterruptMode o = false
   /\ disableISR fuel o g w = Some (set_inISR false (set_myISRId UINT8_MAX o), g, w))
  \/ (isInterruptMode o = true /\ _inISR o = false
      /\ disableISR fuel o g w =
         Some (set_inISR false (set_myISRId UINT8_MAX o),
               {| ISRUsed := to_uint8 (Z.land (ISRUsed g) (Z.lnot (_BV (_myISRId o))));
                  myInstance := myInstance g |},
               after_events w 0
                 [EvNoInterrupts;
                  EvDetachInterrupt (digitalPinToInterrupt (_pinDat o) w);
                  EvInterrupts]))
  \/ (isInterruptMode o = true /\ _inISR o = true /\ disableISR fuel o g w = None).
Proof.
  unfold disableISR.
  destruct (isInterruptMode o) eqn:Emode; [right|left; auto].
  destruct (_inISR o) eqn:Eisr; [right|left].
  - rewrite wait_inISR_stuck by assumption. auto.
  - rewrite wait_inISR_clear by assumption. repeat split.
    unfold noInterrupts, interrupts, detachInterrupt, digitalPinToInterrupt, emit,
      after_events. cbn. rewrite <- !app_assoc. reflexivity.
Qed.

(** In a sequential run [reset] returns unless it has to wait for a read
    that is flagged as in flight. *)
Lemma reset_returns_iff fuel o g w :
  (exists r, reset fuel o g w = Some r) <-> (isInterruptMode o = true -> _inISR o = false).
Proof.
  unfold reset.
  set (o1 := setGainA GAIN_128 (enableChannelB false o)).
  set (w1 := powerUp o (powerDown o w)).
  assert (Hm : isInterruptMode o1 = isInterruptMode o) by reflexivity.
  assert (Hi : _inISR o1 = _inISR o) by reflexivity.
  destruct (disableISR_cases fuel o1 g w1) as [[E1 E] | [(E1 & E2 & E) | (E1 & E2 & E)]];
    rewrite E; rewrite Hm in E1; try rewrite Hi in E2.
  - split; [congruence|eauto].
  - split; [auto|eauto].
  - split; [intros [r Hr]; discriminate|]. intros H. specialize (H E1). congruence.
Qed.

(** C7.  Whatever the state before, [reset] leaves the instance with the
    defaults (Channel B off, gain 128, next channel A, read counter 0, both
    channel records zeroed) and out of interrupt mode: the slot assignment is
    cleared and, if a slot was held, its interrupt is detached and its
    occupancy bit cleared, the other bits and the slot table being left as
    they were.  The call returns as soon as no interrupt-driven read is
    flagged as in flight. *)
Theorem reset_restores_defaults (fuel : nat) (o : MD_HX711) (g : registry) (w : world) :
  (isInterruptMode o = true -> _inISR o = false) ->
  exists o' g' w',
    reset fuel o g w = Some (o', g', w')
    /\ o' = defaults o
    /\ _enableB o' = false /\ _mode o' = GAIN_128 /\ _nextReadA o' = true
    /\ getReadCount o' = 0
    /\ (forall ch, chan_get (_chanData o') ch = mkChan 0 0 0 (S754_zero false))
    /\ isInterruptMode o' = false
    /\ myInstance g' = myInstance g
    /\ (if isInterruptMode o
        then (0 <= _myISRId o -> slot_free g' (_myISRId o) = true)
             /\ (forall j, 0 <= j < 8 -> j <> _myISRId o ->
                   Z.testbit (ISRUsed g') j = Z.testbit (ISRUsed g) j)
             /\ emitted w w' =
                power_cycle (_pinClk o) ++
                [EvNoInterrupts;
                 EvDetachInterrupt (digitalPinToInterrupt (_pinDat o) w);
                 EvInterrupts]
        else g' = g /\ emitted w w' = power_cycle (_pinClk o)).
Proof.
  intros Hwait. unfold reset.
  set (o1 := setGainA GAIN_128 (enableChannelB false o)).
  set (w1 := powerUp o (powerDown o w)).
  assert (Hw1 : w1 = after_events w 0 (power_cycle (_pinClk o))).
  { subst w1. unfold powerUp, powerDown, digitalWrite, delayMicroseconds, emit,
      after_events, power_cycle. cbn. rewrite <- !app_assoc. reflexivity. }
  assert (Hm : isInterruptMode o1 = isInterruptMode o) by reflexivity.
  assert (Hi : _inISR o1 = _inISR o) by reflexivity.
  destruct (disableISR_cases fuel o1 g w1) as [[E1 E] | [(E1 & E2 & E) | (E1 & E2 & E)]];
    rewrite E; rewrite Hm in E1; try rewrite Hi in E2.
  - eexists _, _, _. split; [reflexivity|]. rewrite E1.
    repeat split; try reflexivity.
    + intros []; reflexivity.
    + rewrite Hw1. apply emitted_after_events.
  - eexists _, _, _. split; [reflexivity|]. rewrite E1.
    repeat split; try reflexivity.
    + intros []; reflexivity.
    + intros Hid. rewrite slot_free_testbit by assumption. cbn [ISRUsed].
      change (_myISRId o1) with (_myISRId o).
      rewrite testbit_clear_slot by assumption. reflexivity.
    + intros j Hj Hne. cbn [ISRUsed]. change (_myISRId o1) with (_myISRId o).
      destruct (Z_lt_le_dec (_myISRId o) 0) as [Hneg|Hpos].
      * unfold to_uint8, to_unsigned, _BV.
        rewrite Z.mod_pow2_bits_low, Z.land_spec, Z.lnot_spec by lia.
        rewrite Z.shiftl_1_l, Z.pow_neg_r, Z.bits_0 by lia. apply andb_true_r.
      * apply testbit_clear_slot_other; lia.
    + rewrite Hw1, after_events_compose, emitted_after_events. reflexivity.
  - specialize (Hwait E1). congruence.
Qed.

Lemma reset_restores_defaults_witness :
  exists o1 g1 w1 o2 g2 w2,
    enableInterruptMode 0 1%positive true
      (setGainA GAIN_64 (enableChannelB true demo_scale)) registry_init demo_world
    = Some (true, o1, g1, w1)
    /\ (isInterruptMode o1 = true -> _inISR o1 = false)
    /\ reset 0 o1 g1 w1 = Some (o2, g2, w2)
    /\ o2 = defaults demo_scale
    /\ ISRUsed g1 = 1 /\ ISRUsed g2 = 0.
Proof.
  eexists _, _, _.
  assert (E : enableInterruptMode 0 1%positive true
                (setGainA GAIN_64 (enableChannelB true demo_scale))
                registry_init demo_world
              = Some (true,
                      set_myISRId 0 (setGainA GAIN_64 (enableChannelB true demo_scale)),
                      {| ISRUsed := 1; myInstance := [Some 1%positive; None; None; None] |},
                      after_events demo_world 0
                        (EvAttachInterrupt 0 globalISR0 TRIG_LOW :: power_cycle 4)))
    by (vm_compute; reflexivity).
  destruct (reset_restores_defaults 0
              (set_myISRId 0 (setGainA GAIN_64 (enableChannelB true demo_scale)))
              {| ISRUsed := 1; myInstance := [Some 1%positive; None; None; None] |}
              (after_events demo_world 0
                 (EvAttachInterrupt 0 globalISR0 TRIG_LOW :: power_cycle 4))
              (fun _ => eq_refl))
    as (o2 & g2 & w2 & Hr & Ho & _).
  exists o2, g2, w2.
  split; [exact E|]. split; [intros _; reflexivity|]. split; [exact Hr|].
  split; [rewrite Ho; reflexivity|]. split; [reflexivity|].
  vm_compute in Hr. inversion Hr; subst. reflexivity.
Defined.

(** * Further properties of the code *)

(** ** The read counter *)

Lemma to_uint32_add_l (a b : Z) : to_uint32 (to_uint32 a + b) = to_uint32 (a + b).
Proof. unfold to_uint32, to_unsigned. apply Zplus_mod_idemp_l. Qed.

Lemma run_setGainA ops g o w : run (OpSetGainA g :: ops) o w = run ops (setGainA g o) w.
Proof. reflexivity. Qed.

(** X1.  [getReadCount] advances by one, modulo [2 ^ 32], with every
    [readNB]: after a script it is the old count plus the number of reads,
    reduced to 32 bits, so that it wraps from [2 ^ 32 - 1] to 0.  A
    blocking [read] advances it by one in polled mode and leaves it alone
    in interrupt mode. *)
Theorem read_count_advances (ops : list op) (o : MD_HX711) (w : world) :
  0 <= getReadCount o < 2 ^ 32 ->
  getReadCount (fst (snd (run ops o w)))
  = to_uint32 (getReadCount o + Z.of_nat (count_reads ops))
  /\ (getReadCount o = 2 ^ 32 - 1 -> getReadCount (fst (readNB o w)) = 0)
  /\ (getReadCount o < 2 ^ 32 - 1 ->
      getReadCount (fst (readNB o w)) = getReadCount o + 1)
  /\ (forall fuel ch o' w',
        read fuel o w = Some (ch, o', w') ->
        getReadCount o' =
        if isInterruptMode o then getReadCount o else to_uint32 (getReadCount o + 1)).
Proof.
  intros Hc. split; [|split; [|split]].
  - revert o w Hc. induction ops as [|[|g] ops IH]; intros o w Hc.
    + cbn. rewrite Z.add_0_r. symmetry. now apply to_uint32_small.
    + rewrite run_read. cbn [snd count_reads].
      assert (Hs : getReadCount (fst (readNB o w)) = to_uint32 (getReadCount o + 1))
        by (rewrite readNB_state; reflexivity).
      rewrite IH.
      * rewrite Hs, to_uint32_add_l. f_equal. lia.
      * rewrite Hs. unfold to_uint32, to_unsigned. apply Z.mod_pos_bound. lia.
    + rewrite run_setGainA. cbn [count_reads]. apply (IH (setGainA g o) w Hc).
  - intros E. rewrite readNB_state. unfold getReadCount in *. cbn. rewrite E. reflexivity.
  - intros E. rewrite readNB_state. unfold getReadCount in *. cbn.
    apply to_uint32_small. lia.
  - intros fuel ch o' w' Hr.
    apply read_cases in Hr as [_ [(-> & -> & _) | (-> & w1 & _ & -> & _)]];
      [reflexivity|]. rewrite readNB_state. reflexivity.
Qed.

Lemma read_count_advances_witness :
  0 <= getReadCount (set_readCounter (2 ^ 32 - 2) demo_scale) < 2 ^ 32
  /\ getReadCount
       (fst (snd (run [OpRead; OpSetGainA GAIN_64; OpRead; OpRead]
                      (set_readCounter (2 ^ 32 - 2) demo_scale) demo_world))) = 1.
Proof.
  assert (H : 0 <= getReadCount (set_readCounter (2 ^ 32 - 2) demo_scale) < 2 ^ 32)
    by (cbn; lia).
  split; [exact H|].
  rewrite (proj1 (read_count_advances [OpRead; OpSetGainA GAIN_64; OpRead; OpRead]
                    (set_readCounter (2 ^ 32 - 2) demo_scale) demo_world H)).
  reflexivity.
Defined.

(** ** What a read leaves alone *)

Lemma readNB_keeps o w :
  let o' := fst (readNB o w) in
  _pinClk o' = _pinClk o /\ _pinDat o' = _pinDat o /\ _enableB o' = _enableB o
  /\ _mode o' = _mode o /\ _myISRId o' = _myISRId o /\ _inISR o' = false
  /\ forall ch, tare (chan_get (_chanData o') ch) = tare (chan_get (_chanData o) ch)
                /\ calib (chan_get (_chanData o') ch) = calib (chan_get (_chanData o) ch)
                /\ range (chan_get (_chanData o') ch) = range (chan_get (_chanData o) ch).
Proof.
  cbv zeta. rewrite readNB_state. cbn. repeat split;
    destruct ch, (_enableB o && toggled o); reflexivity.
Qed.

(** X2.  Reads and gain changes never touch what the application has
    configured: after any script the tare, the calibration point and the
    range of both channels, the pins, the Channel B switch and the interrupt
    slot are as before; so a tare or a calibration set before the script is
    read back unchanged after it. *)
Theorem reads_keep_configuration (ops : list op) (o : MD_HX711) (w : world) :
  let o' := fst (snd (run ops o w)) in
  (forall ch, getZeroTare ch o' = getZeroTare ch o
              /\ getCalibration ch o' = getCalibration ch o
              /\ range (chan_get (_chanData o') ch) = range (chan_get (_chanData o) ch))
  /\ _pinClk o' = _pinClk o /\ _pinDat o' = _pinDat o
  /\ _enableB o' = _enableB o /\ isInterruptMode o' = isInterruptMode o
  /\ (forall t ch, getZeroTare ch (fst (snd (run ops (setZeroTare t ch o) w))) = t)
  /\ (forall v r ch,
        getCalibration ch (fst (snd (run ops (setCalibration v r ch o) w))) = v
        /\ range (chan_get (_chanData (fst (snd (run ops (setCalibration v r ch o) w)))) ch) = r).
Proof.
  assert (Hkeep : forall ops o w,
            let o' := fst (snd (run ops o w)) in
            (forall ch, getZeroTare ch o' = getZeroTare ch o
                        /\ getCalibration ch o' = getCalibration ch o
                        /\ range (chan_get (_chanData o') ch) = range (chan_get (_chanData o) ch))
            /\ _pinClk o' = _pinClk o /\ _pinDat o' = _pinDat o
            /\ _enableB o' = _enableB o /\ isInterruptMode o' = isInterruptMode o).
  { clear. induction ops as [|[|g] ops IH]; intros o w; cbv zeta.
    - cbn. auto.
    - rewrite run_read. cbn [snd].
      destruct (IH (fst (readNB o w)) (snd (readNB o w))) as (Hch & H1 & H2 & H3 & H4).
      destruct (readNB_keeps o w) as (K1 & K2 & K3 & _ & K5 & _ & Kch).
      unfold getZeroTare, getCalibration, isInterruptMode in *.
      repeat split; try congruence.
      + destruct (Hch ch) as (-> & _). apply Kch.
      + destruct (Hch ch) as (_ & -> & _). apply Kch.
      + destruct (Hch ch) as (_ & _ & ->). apply Kch.
    - rewrite run_setGainA. apply (IH (setGainA g o) w). }
  cbv zeta. destruct (Hkeep ops o w) as (Hch & H1 & H2 & H3 & H4).
  repeat split; try assumption; try apply Hch.
  - intros t ch. destruct (Hkeep ops (setZeroTare t ch o) w) as (Hch' & _).
    destruct (Hch' ch) as (-> & _). unfold getZeroTare, setZeroTare. cbn.
    rewrite chan_get_set_same. reflexivity.
  - destruct (Hkeep ops (setCalibration v r ch o) w) as (Hch' & _).
    destruct (Hch' ch) as (_ & -> & _). unfold getCalibration, setCalibration. cbn.
    rewrite chan_get_set_same. reflexivity.
  - destruct (Hkeep ops (setCalibration v r ch o) w) as (Hch' & _).
    destruct (Hch' ch) as (_ & _ & ->). unfold setCalibration. cbn.
    rewrite chan_get_set_same. reflexivity.
Qed.

(** ** Stored readings *)

Lemma sign_extend_cases (v : Z) :
  0 <= v < 2 ^ 24 -> sign_extend v = if v <? 2 ^ 23 then v else v - 2 ^ 24.
Proof.
  intros Hv. unfold sign_extend.
  change 0x800000 with (2 ^ 23). rewrite land_pow2 by lia.
  destruct (Z.ltb_spec v (2 ^ 23)) as [Hlt|Hge].
  - rewrite (testbit_above v 23 23) by lia. reflexivity.
  - assert (Hbit : Z.testbit v 23 = true).
    { rewrite Z.testbit_true by lia.
      assert (Hq : v / 2 ^ 23 = 1)
        by (symmetry; apply (Z.div_unique v (2 ^ 23) 1 (v - 2 ^ 23)); lia).
      rewrite Hq. reflexivity. }
    rewrite Hbit. change (2 ^ 23 =? 0) with false. cbn [negb].
    rewrite to_uint32_small by lia.
    rewrite lor_disjoint by (apply land_high_byte; assumption).
    unfold to_int32, to_signed. change (32 - 1) with 31.
    replace (v + 0xff000000 + 2 ^ 31) with (v - 2 ^ 24 + 2 ^ 31 + 1 * 2 ^ 32) by lia.
    rewrite Z.mod_add by lia. rewrite Z.mod_small by lia. lia.
Qed.

Lemma pattern_range o w : 0 <= pattern o w < 2 ^ 24.
Proof.
  unfold pattern.
  pose proof (msb_value_bound (samples (dat_in w (_pinDat o)) (nreads w) 24)) as H.
  rewrite length_samples in H. exact H.
Qed.

Lemma sign_extend_pattern_range o w : - 2 ^ 23 <= sign_extend (pattern o w) < 2 ^ 23.
Proof.
  pose proof (pattern_range o w) as H. rewrite sign_extend_cases by assumption.
  destruct (Z.ltb_spec (pattern o w) (2 ^ 23)); lia.
Qed.

Lemma readNB_raw_in_range o w : raw_in_range o -> raw_in_range (fst (readNB o w)).
Proof.
  intros H ch. rewrite readNB_state. unfold getRaw. cbn.
  pose proof (sign_extend_pattern_range o w). specialize (H ch). unfold getRaw in H.
  destruct ch, (_enableB o && toggled o); cbn; assumption.
Qed.

(** X3.  A read stores the 24-bit pattern without loss: the raw value of
    the channel it reports lies in [- 2 ^ 23, 2 ^ 23) and its low 24 bits
    are the pattern clocked in.  Raw values that are 24-bit signed numbers
    stay so over any script, and [getTared] is then the exact difference
    for every tare of at most 31 bits. *)
Theorem raw_is_24bit_signed (ops : list op) (o : MD_HX711) (w : world) :
  raw_in_range o ->
  (let o1 := fst (readNB o w) in
   - 2 ^ 23 <= getRaw (read_channel o1) o1 < 2 ^ 23
   /\ to_unsigned 24 (getRaw (read_channel o1) o1) = pattern o w)
  /\ raw_in_range (fst (snd (run ops o w)))
  /\ (forall ch, let o' := fst (snd (run ops o w)) in
        - 2 ^ 30 <= getZeroTare ch o' <= 2 ^ 30 ->
        getTared ch o' = getRaw ch o' - getZeroTare ch o').
Proof.
  intros Hraw.
  assert (Hrun : forall ops o w, raw_in_range o -> raw_in_range (fst (snd (run ops o w)))).
  { clear. induction ops as [|[|g] ops IH]; intros o w H.
    - exact H.
    - rewrite run_read. cbn [snd]. apply IH. now apply readNB_raw_in_range.
    - rewrite run_setGainA. now apply (IH (setGainA g o) w). }
  split; [|split].
  - cbv zeta. rewrite readNB_state. unfold getRaw, read_channel. cbn.
    pose proof (pattern_range o w) as Hp.
    pose proof (sign_extend_pattern_range o w) as Hs.
    assert (Hlow : to_unsigned 24 (sign_extend (pattern o w)) = pattern o w).
    { rewrite sign_extend_cases by assumption. unfold to_unsigned.
      destruct (Z.ltb_spec (pattern o w) (2 ^ 23)).
      - apply Z.mod_small. lia.
      - replace (pattern o w - 2 ^ 24) with (pattern o w + (-1) * 2 ^ 24) by lia.
        rewrite Z.mod_add by lia. apply Z.mod_small. lia. }
    destruct (_enableB o && toggled o); cbn; auto.
  - now apply Hrun.
  - intros ch o' Ht. specialize (Hrun ops o w Hraw ch). fold o' in Hrun.
    unfold getTared, getRaw, getZeroTare in *.
    apply to_int32_small. unfold is_int32, INT32_MIN, INT32_MAX. lia.
Qed.

Lemma raw_is_24bit_signed_witness :
  raw_in_range demo_scale
  /\ getRaw CH_A (fst (readNB demo_scale demo_world)) = - 0x555556
  /\ to_unsigned 24 (getRaw CH_A (fst (readNB demo_scale demo_world)))
     = pattern demo_scale demo_world.
Proof.
  assert (H : raw_in_range demo_scale) by (intros []; cbn; lia).
  split; [exact H|].
  destruct (raw_is_24bit_signed [] demo_scale demo_world H) as ((_ & Hlow) & _).
  split; [|exact Hlow].
  rewrite readNB_state. reflexivity.
Defined.

(** ** The second loop of [HX711ReadData] for any [uint8_t] *)

Lemma extra_pulses_zero clk w :
  extra_pulses clk 0 w = after_events w 0 (concat (replicate 256 (plain_cycle clk))).
Proof.
  rewrite extra_pulses_step. change (to_uint8 (0 - 1)) with 255. cbn [Z.ltb Z.compare].
  change 255 with (Z.of_nat (S 254)). rewrite extra_pulses_spec by lia.
  rewrite clock_pulse_events, after_events_compose. reflexivity.
Qed.

(** X4.  [HX711ReadData] takes its pulse count as a [uint8_t] and tests it
    after the first extra pulse: a count of 0 wraps to 255 and makes 256
    extra pulses (280 in all), any other count [n] makes exactly [n].  The
    value returned does not depend on the count. *)
Theorem HX711ReadData_any_count (o : MD_HX711) (mode : Z) (w : world) :
  0 <= mode <= 255 ->
  let n := if mode =? 0 then 256 else mode in
  HX711ReadData o mode w =
  (pattern o w,
   after_events w 24
     (exchange (_pinClk o) (_pinDat o) (samples (dat_in w (_pinDat o)) (nreads w) 24) n))
  /\ clock_pulses (_pinClk o) (emitted w (snd (HX711ReadData o mode w))) = 24 + n
  /\ 25 <= clock_pulses (_pinClk o) (emitted w (snd (HX711ReadData o mode w))).
Proof.
  intros Hm. cbv zeta.
  assert (E : HX711ReadData o mode w =
              (pattern o w,
               after_events w 24
                 (exchange (_pinClk o) (_pinDat o)
                    (samples (dat_in w (_pinDat o)) (nreads w) 24)
                    (if mode =? 0 then 256 else mode)))).
  { destruct (Z.eqb_spec mode 0) as [->|Hne].
    - unfold HX711ReadData. change 0x800000 with (2 ^ Z.of_nat 23).
      rewrite read_bits_spec; [| lia | lia | reflexivity].
      rewrite extra_pulses_zero, after_events_compose. reflexivity.
    - apply HX711ReadData_spec. lia. }
  rewrite E. cbn [snd]. rewrite emitted_after_events.
  rewrite clock_pulses_exchange, length_samples by (destruct (mode =? 0); lia).
  repeat split; destruct (Z.eqb_spec mode 0); lia.
Qed.

Lemma HX711ReadData_any_count_witness :
  0 <= 0 <= 255
  /\ clock_pulses (_pinClk demo_scale)
       (emitted demo_world (snd (HX711ReadData demo_scale 0 demo_world))) = 280.
Proof.
  split; [lia|].
  exact (proj1 (proj2 (HX711ReadData_any_count demo_scale 0 demo_world ltac:(lia)))).
Defined.

(** ** The blocking read *)

Lemma wait_ready_low (k : nat) : forall fuel o w,
  (k <= fuel)%nat ->
  (forall j, (j < k)%nat -> dat_in w (_pinDat o) (nreads w + j)%nat = HIGH) ->
  dat_in w (_pinDat o) (nreads w + k)%nat = LOW ->
  wait_ready fuel o w = Some (after_events w (S k) (polls (_pinDat o) k)).
Proof.
  induction k as [|k IH]; intros fuel o w Hk Hhigh Hlow.
  - rewrite Nat.add_0_r in Hlow.
    destruct fuel; cbn; unfold isReady, digitalRead; rewrite Hlow; reflexivity.
  - destruct fuel as [|fuel]; [lia|].
    pose proof (Hhigh 0%nat ltac:(lia)) as H0. rewrite Nat.add_0_r in H0.
    cbn [wait_ready]. unfold isReady, digitalRead. rewrite H0. cbn [level_eqb].
    match goal with |- wait_ready fuel o ?x = _ =>
      replace x with (after_events w 1 [EvDigitalRead (_pinDat o) HIGH; EvYield])
        by (unfold yield, emit, after_events; cbn; now rewrite <- app_assoc)
    end.
    rewrite IH.
    + rewrite after_events_compose. f_equal.
      unfold after_events, polls. rewrite replicate_S. cbn [concat].
      rewrite <- !app_assoc. f_equal. lia.
    + lia.
    + intros j Hj. cbn [after_events dat_in nreads].
      replace (1 + nreads w + j)%nat with (nreads w + S j)%nat by lia.
      apply Hhigh. lia.
    + cbn [after_events dat_in nreads].
      replace (1 + nreads w + k)%nat with (nreads w + S k)%nat by lia. exact Hlow.
Qed.

Lemma wait_ready_high (fuel : nat) : forall o w,
  (forall j, (j <= fuel)%nat -> dat_in w (_pinDat o) (nreads w + j)%nat = HIGH) ->
  wait_ready fuel o w = None.
Proof.
  induction fuel as [|fuel IH]; intros o w Hhigh;
    pose proof (Hhigh 0%nat ltac:(lia)) as H0; rewrite Nat.add_0_r in H0;
    cbn [wait_ready]; unfold isReady, digitalRead; rewrite H0; cbn [level_eqb];
    [reflexivity|].
  apply IH. intros j Hj. cbn.
  replace (S (nreads w + j)) with (nreads w + S j)%nat by lia. apply Hhigh. lia.
Qed.

(** X5.  In polled mode [read] polls DAT until it is low, yielding after
    every poll that finds it high: when DAT is first low at poll [k] the
    call has made [k + 1] polls and [k] yields, then one [readNB], and
    reports the channel of that read.  When DAT stays high for [fuel + 1]
    polls the call has not returned.  In interrupt mode [read] touches
    neither the instance nor the hardware. *)
Theorem read_waits_for_data (fuel : nat) (o : MD_HX711) (w : world) :
  (isInterruptMode o = true -> read fuel o w = Some (read_channel o, o, w))
  /\ (isInterruptMode o = false ->
      forall k, (k <= fuel)%nat ->
        (forall j, (j < k)%nat -> dat_in w (_pinDat o) (nreads w + j)%nat = HIGH) ->
        dat_in w (_pinDat o) (nreads w + k)%nat = LOW ->
        let w1 := after_events w (S k) (polls (_pinDat o) k) in
        read fuel o w =
        Some (read_channel (fst (readNB o w1)), fst (readNB o w1), snd (readNB o w1))
        /\ emitted w (snd (readNB o w1)) =
           polls (_pinDat o) k ++ emitted w1 (snd (readNB o w1)))
  /\ (isInterruptMode o = false ->
      (forall j, (j <= fuel)%nat -> dat_in w (_pinDat o) (nreads w + j)%nat = HIGH) ->
      read fuel o w = None).
Proof.
  split; [|split].
  - intros Hm. unfold read. rewrite Hm. reflexivity.
  - intros Hm k Hk Hhigh Hlow. cbv zeta. unfold read. rewrite Hm. cbn [negb].
    rewrite (wait_ready_low k fuel o w Hk Hhigh Hlow).
    split; [now destruct (readNB o _)|].
    pose proof (readNB_spec o (after_events w (S k) (polls (_pinDat o) k))) as Hs.
    cbv zeta in Hs. rewrite Hs. cbn [snd].
    rewrite emitted_after_events, after_events_compose, emitted_after_events.
    reflexivity.
  - intros Hm Hhigh. unfold read. rewrite Hm. cbn [negb].
    now rewrite wait_ready_high.
Qed.

Lemma read_waits_for_data_witness :
  isInterruptMode demo_scale = false
  /\ exists o' w', read 1 demo_scale demo_world = Some (CH_A, o', w')
       /\ nreads w' = 26%nat.
Proof.
  split; [reflexivity|].
  assert (Hhigh : forall j, (j < 1)%nat ->
            dat_in demo_world (_pinDat demo_scale) (nreads demo_world + j)%nat = HIGH)
    by (intros j Hj; replace j with 0%nat by lia; reflexivity).
  destruct (proj1 (proj2 (read_waits_for_data 1 demo_scale demo_world)) eq_refl 1%nat
              (le_n 1) Hhigh eq_refl) as [Hr _].
  set (w1 := after_events demo_world 2 (polls (_pinDat demo_scale) 1)) in *.
  exists (fst (readNB demo_scale w1)), (snd (readNB demo_scale w1)). split.
  - replace CH_A with (read_channel (fst (readNB demo_scale w1)))
      by (rewrite readNB_state; reflexivity).
    exact Hr.
  - pose proof (readNB_spec demo_scale w1) as Hs.
    cbv zeta in Hs. rewrite Hs. reflexivity.
Defined.

(** ** Detaching *)

Lemma to_uint8_testbit (x n : Z) :
  0 <= n -> Z.testbit (to_uint8 x) n = (n <? 8) && Z.testbit x n.
Proof.
  intros Hn. unfold to_uint8, to_unsigned.
  destruct (Z.ltb_spec n 8).
  - now rewrite Z.mod_pow2_bits_low by lia.
  - now rewrite Z.mod_pow2_bits_high by lia.
Qed.

(** Setting a free bit of the occupancy field and clearing it again gives
    the field back. *)
Lemma ISRUsed_set_clear (u i : Z) :
  0 <= u < 256 -> 0 <= i < 8 -> Z.testbit u i = false ->
  to_uint8 (Z.land (to_uint8 (Z.lor u (_BV i))) (Z.lnot (_BV i))) = u.
Proof.
  intros Hu Hi Hfree. apply Z.bits_inj'. intros n Hn.
  rewrite to_uint8_testbit, Z.land_spec, to_uint8_testbit by assumption.
  rewrite Z.lor_spec, Z.lnot_spec by assumption. unfold _BV.
  rewrite Z.shiftl_1_l, Z.pow2_bits_eqb by lia.
  destruct (Z.ltb_spec n 8) as [Hlt|Hge]; cbn [andb].
  - destruct (Z.eqb_spec i n) as [->|Hne]; cbn.
    + rewrite Hfree, andb_false_r. reflexivity.
    + rewrite orb_false_r, andb_true_r. reflexivity.
  - symmetry. apply (testbit_above u n 8); lia.
Qed.

Lemma eta_MD_HX711 (o : MD_HX711) :
  mkHX (_pinClk o) (_pinDat o) (_enableB o) (_mode o) (_nextReadA o) (_readCounter o)
       (_chanData o) (_myISRId o) (_inISR o) = o.
Proof. now destruct o. Qed.

(** Detaching an instance that is not attached does nothing. *)
Lemma detach_detached fuel this o g w :
  isInterruptMode o = false -> _inISR o = false ->
  enableInterruptMode fuel this false o g w = Some (true, o, g, w).
Proof.
  intros Hm Hisr. unfold enableInterruptMode.
  destruct (disableISR_cases fuel o g w) as [[_ E] | [(E1 & _) | (E1 & _)]];
    try congruence.
  rewrite E. replace (set_inISR false (set_myISRId UINT8_MAX o)) with o; [reflexivity|].
  unfold isInterruptMode in Hm. apply negb_false_iff in Hm. apply Z.eqb_eq in Hm.
  unfold set_inISR, set_myISRId. cbn. rewrite <- Hm, <- Hisr. symmetry.
  apply eta_MD_HX711.
Qed.

(** X6.  Detaching undoes attaching: after a successful
    [enableInterruptMode(true)], [enableInterruptMode(false)] returns true,
    gives back the instance and the occupancy bits as they were before the
    attach, and only masks the interrupts, detaches the interrupt of the
    data pin and unmasks them.  The slot table keeps its entry for the
    instance.  Detaching once more changes nothing at all. *)
Theorem attach_then_detach
    (fuel : nat) (this : addr) (o : MD_HX711) (g : registry) (w : world)
    (o1 : MD_HX711) (g1 : registry) (w1 : world) :
  0 <= ISRUsed g < 256 -> _inISR o = false ->
  enableInterruptMode fuel this true o g w = Some (true, o1, g1, w1) ->
  exists w2,
    enableInterruptMode fuel this false o1 g1 w1
    = Some (true, o, {| ISRUsed := ISRUsed g; myInstance := myInstance g1 |}, w2)
    /\ emitted w1 w2 =
       [EvNoInterrupts; EvDetachInterrupt (digitalPinToInterrupt (_pinDat o) w);
        EvInterrupts]
    /\ myInstance g1 = <[Z.to_nat (_myISRId o1) := Some this]> (myInstance g)
    /\ enableInterruptMode fuel this false o
         {| ISRUsed := ISRUsed g; myInstance := myInstance g1 |} w2
       = Some (true, o, {| ISRUsed := ISRUsed g; myInstance := myInstance g1 |}, w2).
Proof.
  intros Hu Hisr H. unfold enableInterruptMode in H.
  destruct (enableISR_cases this o g w) as
    [[_ E] | [(_ & _ & E) | [(_ & _ & _ & E)
      | (Emode & Eirq & i & f & Hi & Hfree & Hlow & Hf & Hslot & E)]]];
    rewrite E in H; try discriminate.
  inversion H; subst o1 g1 w1; clear H E. unfold MAX_INSTANCE in Hi.
  assert (Hid : _myISRId o = UINT8_MAX).
  { unfold isInterruptMode in Emode. apply negb_false_iff in Emode. now apply Z.eqb_eq. }
  assert (Hback : set_inISR false (set_myISRId UINT8_MAX (set_myISRId i o)) = o).
  { unfold set_inISR, set_myISRId. cbn. rewrite <- Hid, <- Hisr. apply eta_MD_HX711. }
  assert (Hbit : Z.testbit (ISRUsed g) i = false).
  { rewrite slot_free_testbit in Hfree by lia. now apply negb_true_iff in Hfree. }
  unfold enableInterruptMode.
  match goal with |- context [disableISR fuel ?a ?b ?c] =>
    destruct (disableISR_cases fuel a b c) as [[E1 _] | [(_ & _ & E) | (_ & E2 & _)]]
  end.
  - unfold isInterruptMode in E1. cbn [_myISRId set_myISRId] in E1.
    apply negb_false_iff in E1. apply Z.eqb_eq in E1. unfold UINT8_MAX in E1. lia.
  - rewrite E, Hback. cbn [ISRUsed myInstance _myISRId set_myISRId].
    rewrite ISRUsed_set_clear by (assumption || lia).
    eexists. split; [reflexivity|]. split; [apply emitted_after_events|].
    split; [reflexivity|].
    apply (detach_detached fuel this); assumption.
  - cbn in E2. congruence.
Qed.

Lemma attach_then_detach_witness :
  0 <= ISRUsed registry_init < 256 /\ _inISR demo_scale = false
  /\ exists o1 g1 w1 w2,
       enableInterruptMode 0 1%positive true demo_scale registry_init demo_world
       = Some (true, o1, g1, w1)
       /\ enableInterruptMode 0 1%positive false o1 g1 w1
          = Some (true, demo_scale,
                  {| ISRUsed := 0; myInstance := [Some 1%positive; None; None; None] |}, w2).
Proof.
  assert (Hu : 0 <= ISRUsed registry_init < 256) by (cbn; lia).
  split; [exact Hu|]. split; [reflexivity|].
  assert (E : enableInterruptMode 0 1%positive true demo_scale registry_init demo_world
              = Some (true, set_myISRId 0 demo_scale,
                      {| ISRUsed := 1; myInstance := [Some 1%positive; None; None; None] |},
                      after_events demo_world 0
                        (EvAttachInterrupt 0 globalISR0 TRIG_LOW :: power_cycle 4)))
    by (vm_compute; reflexivity).
  destruct (attach_then_detach 0 1%positive demo_scale registry_init demo_world _ _ _
              Hu eq_refl E) as (w2 & Hd & _).
  eexists _, _, _, w2. split; [exact E|exact Hd].
Defined.

(** X7.  A full registry is a recoverable failure: while the four slots
    are taken an unattached instance is refused, and as soon as an attached
    instance is detached the same request succeeds and is given the very
    slot that was freed. *)
Theorem detach_makes_room
    (fuel : nat) (a b : addr) (oa ob : MD_HX711) (g : registry) (w : world) :
  (forall j, 0 <= j < MAX_INSTANCE -> slot_free g j = false) ->
  length (myInstance g) = 4%nat ->
  isInterruptMode oa = true -> 0 <= _myISRId oa < MAX_INSTANCE -> _inISR oa = false ->
  isInterruptMode ob = false ->
  to_int8 (pin_irq w (_pinDat ob)) <> NOT_AN_INTERRUPT ->
  enableInterruptMode fuel b true ob g w = Some (false, ob, g, w)
  /\ exists oa' g' w',
       enableInterruptMode fuel a false oa g w = Some (true, oa', g', w')
       /\ isInterruptMode oa' = false
       /\ exists g'' w'',
            enableInterruptMode fuel b true ob g' w'
            = Some (true, set_myISRId (_myISRId oa) ob, g'', w'')
            /\ myInstance g'' !! Z.to_nat (_myISRId oa) = Some (Some b)
            /\ (forall j, 0 <= j < MAX_INSTANCE -> slot_free g'' j = false).
Proof.
  intros Hfull Hlen Ha Hida Hisr Hb Hirq. unfold MAX_INSTANCE in *.
  split.
  { unfold enableInterruptMode.
    destruct (enableISR_cases b ob g w) as
      [[E1 E] | [(_ & _ & E) | [(_ & _ & _ & E)
        | (_ & _ & i & f & Hi & Hfree & _)]]]; try assumption; try congruence.
    rewrite (Hfull i Hi) in Hfree. discriminate. }
  unfold enableInterruptMode at 1.
  destruct (disableISR_cases fuel oa g w) as [[E1 _] | [(_ & _ & E) | (_ & E2 & _)]];
    try congruence.
  rewrite E. eexists _, _, _. split; [reflexivity|]. split; [reflexivity|].
  set (g' := {| ISRUsed := to_uint8 (Z.land (ISRUsed g) (Z.lnot (_BV (_myISRId oa))));
                myInstance := myInstance g |}).
  assert (Hfree' : slot_free g' (_myISRId oa) = true).
  { rewrite slot_free_testbit by lia. cbn [g' ISRUsed].
    rewrite testbit_clear_slot by lia. reflexivity. }
  assert (Hother : forall j, 0 <= j < 4 -> j <> _myISRId oa -> slot_free g' j = false).
  { intros j Hj Hne. rewrite slot_free_testbit by lia. cbn [g' ISRUsed].
    rewrite testbit_clear_slot_other by lia.
    pose proof (Hfull j Hj) as Hf. rewrite slot_free_testbit in Hf by lia. exact Hf. }
  unfold enableInterruptMode.
  match goal with |- context [enableISR b ob g' ?w'] =>
    destruct (enableISR_cases b ob g' w') as
      [[E1 _] | [(_ & E1 & _) | [(_ & _ & Hfull' & _)
        | (_ & _ & i & f & Hi & Hfree & Hlow & Hf & Hslot & E')]]]
  end.
  - congruence.
  - exfalso. apply Hirq. exact E1.
  - rewrite (Hfull' (_myISRId oa) ltac:(unfold MAX_INSTANCE; lia)) in Hfree'. discriminate.
  - unfold MAX_INSTANCE in Hi.
    assert (i = _myISRId oa) as ->.
    { destruct (Z.eq_dec i (_myISRId oa)) as [|Hne]; [assumption|].
      rewrite (Hother i Hi Hne) in Hfree. discriminate. }
    rewrite E'. eexists _, _. split; [reflexivity|]. split.
    + cbn [myInstance g']. apply list_lookup_insert_eq. lia.
    + intros j Hj. rewrite slot_free_testbit by lia. cbn [ISRUsed].
      destruct (Z.eq_dec j (_myISRId oa)) as [->|Hne].
      * rewrite testbit_set_slot by lia. reflexivity.
      * rewrite testbit_set_slot_other by lia.
        pose proof (Hother j Hj Hne) as Hf'. rewrite slot_free_testbit in Hf' by lia.
        exact Hf'.
Qed.

Lemma detach_makes_room_witness :
  let g := {| ISRUsed := 15;
              myInstance := [Some 1; Some 2; Some 3; Some 4]%positive |} in
  let oa := set_myISRId 2 (construct 6 18 zero_storage) in
  let ob := construct 8 20 zero_storage in
  (forall j, 0 <= j < MAX_INSTANCE -> slot_free g j = false)
  /\ enableInterruptMode 0 5%positive true ob g demo_world = Some (false, ob, g, demo_world)
  /\ exists oa' g' w' g'' w'',
       enableInterruptMode 0 3%positive false oa g demo_world = Some (true, oa', g', w')
       /\ enableInterruptMode 0 5%positive true ob g' w'
          = Some (true, set_myISRId 2 ob, g'', w'').
Proof.
  cbv zeta.
  assert (Hfull : forall j, 0 <= j < MAX_INSTANCE ->
            slot_free {| ISRUsed := 15;
                         myInstance := [Some 1; Some 2; Some 3; Some 4]%positive |} j
            = false).
  { intros j Hj. unfold MAX_INSTANCE in Hj.
    assert (j = 0 \/ j = 1 \/ j = 2 \/ j = 3) as [-> | [-> | [-> | ->]]] by lia;
      reflexivity. }
  split; [exact Hfull|].
  destruct (detach_makes_room 0 3%positive 5%positive
              (set_myISRId 2 (construct 6 18 zero_storage)) (construct 8 20 zero_storage)
              {| ISRUsed := 15; myInstance := [Some 1; Some 2; Some 3; Some 4]%positive |}
              demo_world Hfull eq_refl eq_refl)
    as (Hrefused & oa' & g' & w' & Hd & _ & g'' & w'' & Hattach & _).
  - unfold MAX_INSTANCE. cbn. lia.
  - reflexivity.
  - reflexivity.
  - vm_compute. discriminate.
  - split; [exact Hrefused|]. exists oa', g', w', g'', w''. split; assumption.
Defined.

(** ** The registry invariant *)

Section RegistryInvariant.

Lemma owns_slot_same_id g this o o' :
  _myISRId o' = _myISRId o -> owns_slot g this o -> owns_slot g this o'.
Proof. unfold owns_slot, isInterruptMode. intros ->. auto. Qed.

Lemma owns_slot_detached g this o : isInterruptMode o = false -> owns_slot g this o.
Proof. unfold owns_slot. congruence. Qed.

Lemma registry_ok_update s this o' g' w' :
  registry_ok s ->
  length (myInstance g') = 4%nat ->
  owns_slot g' this o' ->
  (forall a oa, a <> this -> objs s !! a = Some oa ->
                owns_slot (statics s) a oa -> owns_slot g' a oa) ->
  registry_ok (mkSys (<[this := o']> (objs s)) g' w').
Proof.
  intros [Hlen Hok] Hlen' Hthis Hothers. split; [exact Hlen'|].
  intros a oa. cbn [objs statics]. rewrite lookup_insert.
  destruct (decide (this = a)) as [->|Hne]; intros Hl.
  - inversion Hl; subst. exact Hthis.
  - apply Hothers; auto.
Qed.

(** Clearing the bit of [this] leaves the slots of the other instances. *)
Lemma owns_slot_after_clear g this o a oa :
  owns_slot g this o -> isInterruptMode o = true -> a <> this ->
  owns_slot g a oa ->
  owns_slot {| ISRUsed := to_uint8 (Z.land (ISRUsed g) (Z.lnot (_BV (_myISRId o))));
               myInstance := myInstance g |} a oa.
Proof.
  intros Hthis Hm Hne Ha Hma.
  destruct (Hthis Hm) as (Hi & _ & Hl). destruct (Ha Hma) as (Hia & Hb & Hla).
  unfold MAX_INSTANCE in *.
  assert (Hdiff : _myISRId o <> _myISRId oa).
  { intros E. rewrite E in Hl. congruence. }
  repeat split; try lia; [|exact Hla].
  rewrite slot_free_testbit in * by lia. cbn [ISRUsed].
  rewrite testbit_clear_slot_other by lia. exact Hb.
Qed.

(** Taking the free slot [i] leaves the slots of the other instances. *)
Lemma owns_slot_after_set g this i a oa :
  0 <= i < MAX_INSTANCE -> slot_free g i = true ->
  owns_slot g a oa ->
  owns_slot {| ISRUsed := to_uint8 (Z.lor (ISRUsed g) (_BV i));
               myInstance := <[Z.to_nat i := Some this]> (myInstance g) |} a oa.
Proof.
  intros Hi Hfree Ha Hma. destruct (Ha Hma) as (Hia & Hb & Hla).
  unfold MAX_INSTANCE in *.
  assert (Hdiff : i <> _myISRId oa) by (intros ->; congruence).
  repeat split; try lia.
  - rewrite slot_free_testbit in * by lia. cbn [ISRUsed].
    rewrite testbit_set_slot_other by lia. exact Hb.
  - cbn [myInstance]. rewrite list_lookup_insert_ne by lia. exact Hla.
Qed.

Lemma registry_ok_detach fuel s this o o' g' w' :
  registry_ok s -> objs s !! this = Some o ->
  disableISR fuel o (statics s) (hw s) = Some (o', g', w') ->
  length (myInstance g') = 4%nat
  /\ isInterruptMode o' = false
  /\ forall a oa, a <> this -> objs s !! a = Some oa -> owns_slot g' a oa.
Proof.
  intros [Hlen Hok] Ho Hd.
  destruct (disableISR_cases fuel o (statics s) (hw s))
    as [[E1 E] | [(E1 & _ & E) | (_ & _ & E)]]; rewrite E in Hd; try discriminate;
    inversion Hd; subst o' g' w'; clear Hd.
  - split; [assumption|]. split; [reflexivity|]. intros a oa _ Ha. eauto.
  - split; [assumption|]. split; [reflexivity|].
    intros a oa Hne Ha. eapply owns_slot_after_clear; eauto.
Qed.

Lemma registry_ok_step fuel op s s' :
  registry_ok s -> sys_step fuel op s = Some s' -> registry_ok s'.
Proof.
  intros Hok Hstep. pose proof Hok as [Hlen Hall].
  destruct op as [this|this|this|this|f]; cbn [sys_step] in Hstep.
  - (* attach *)
    unfold sys_enableInterruptMode, enableInterruptMode in Hstep.
    destruct (objs s !! this) as [o|] eqn:Ho; [|discriminate].
    destruct (enableISR_cases this o (statics s) (hw s)) as
      [[_ E] | [(_ & _ & E) | [(_ & _ & _ & E)
        | (Emode & Eirq & i & f & Hi & Hfree & Hlow & Hf & Hslot & E)]]];
      rewrite E in Hstep; cbn in Hstep; inversion Hstep; subst s'; clear Hstep.
    1-3: apply registry_ok_update; eauto.
    apply registry_ok_update; try assumption.
    + cbn [myInstance]. now rewrite length_insert.
    + intros _. cbn [_myISRId set_myISRId ISRUsed myInstance]. unfold MAX_INSTANCE in *.
      repeat split; try lia.
      * rewrite slot_free_testbit by lia. cbn [ISRUsed].
        rewrite testbit_set_slot by lia. reflexivity.
      * apply list_lookup_insert_eq. lia.
    + intros a oa _ Ha Hown. now apply owns_slot_after_set.
  - (* detach *)
    unfold sys_enableInterruptMode, enableInterruptMode in Hstep.
    destruct (objs s !! this) as [o|] eqn:Ho; [|discriminate].
    destruct (disableISR fuel o (statics s) (hw s)) as [[[o' g'] w']|] eqn:Hd;
      [|discriminate].
    cbn in Hstep. inversion Hstep; subst s'; clear Hstep.
    destruct (registry_ok_detach fuel s this o o' g' w' Hok Ho Hd) as (Hl & Hm & Hoth).
    apply registry_ok_update; auto using owns_slot_detached.
  - (* reset *)
    unfold sys_reset, reset in Hstep.
    destruct (objs s !! this) as [o|] eqn:Ho; [|discriminate].
    set (o1 := setGainA GAIN_128 (enableChannelB false o)) in *.
    set (w1 := powerUp o (powerDown o (hw s))) in *.
    destruct (disableISR fuel o1 (statics s) w1) as [[[o' g'] w']|] eqn:Hd;
      [|discriminate].
    inversion Hstep; subst s'; clear Hstep.
    assert (Hok1 : registry_ok (mkSys (<[this := o1]> (objs s)) (statics s) w1)).
    { apply registry_ok_update; auto.
      apply (owns_slot_same_id _ _ o); [reflexivity|eauto]. }
    destruct (registry_ok_detach fuel _ this o1 o' g' w' Hok1
                ltac:(cbn; apply lookup_insert_eq) Hd) as (Hl & Hm & Hoth).
    apply registry_ok_update; auto.
    + apply owns_slot_detached. unfold isInterruptMode in *. exact Hm.
    + intros a oa Hne Ha _. apply (Hoth a oa Hne). cbn.
      rewrite lookup_insert_ne by congruence. exact Ha.
  - (* destructor *)
    unfold sys_destroy in Hstep.
    destruct (objs s !! this) as [o|] eqn:Ho; [|discriminate].
    destruct (disableISR fuel o (statics s) (hw s)) as [[[o' g'] w']|] eqn:Hd;
      [|discriminate].
    inversion Hstep; subst s'; clear Hstep.
    destruct (registry_ok_detach fuel s this o o' g' w' Hok Ho Hd) as (Hl & Hm & Hoth).
    split; [exact Hl|]. intros a oa. cbn [objs statics].
    rewrite lookup_delete_Some. intros [Hne Ha]. apply Hoth; auto.
  - (* an interrupt fires *)
    unfold run_isr in Hstep.
    destruct (myInstance (statics s) !! isr_slot f) as [[this|]|]; try discriminate.
    destruct (objs s !! this) as [o|] eqn:Ho; [|discriminate].
    destruct (readNB o (hw s)) as [o' w'] eqn:Er.
    inversion Hstep; subst s'; clear Hstep.
    apply registry_ok_update; auto.
    apply (owns_slot_same_id _ _ o); [|eauto].
    pose proof (readNB_keeps o (hw s)) as K. cbv zeta in K. rewrite Er in K. apply K.
Qed.

End RegistryInvariant.

Lemma registry_ok_unattached (s : system) :
  length (myInstance (statics s)) = 4%nat ->
  (forall this o, objs s !! this = Some o -> isInterruptMode o = false) ->
  registry_ok s.
Proof.
  intros Hlen H. split; [exact Hlen|].
  intros this o Ho. apply owns_slot_detached. eauto.
Qed.

Lemma five_scales_ok : registry_ok five_scales.
Proof.
  apply registry_ok_unattached; [reflexivity|].
  intros this o Ho. cbn [five_scales objs] in Ho.
  apply elem_of_list_to_map_2 in Ho.
  repeat (apply elem_of_cons in Ho as [Ho|Ho]; [inversion Ho; reflexivity|]).
  inversion Ho.
Qed.

Lemma registry_ok_run (fuel : nat) (ops : list sys_op) : forall s s',
  registry_ok s -> sys_run fuel ops s = Some s' -> registry_ok s'.
Proof.
  induction ops as [|op ops IH]; intros s s' Hok Hrun; cbn [sys_run] in Hrun.
  - inversion Hrun; subst. exact Hok.
  - destruct (sys_step fuel op s) as [s1|] eqn:Hstep; [|discriminate].
    apply (IH s1); [|exact Hrun]. eapply registry_ok_step; eauto.
Qed.

(** X8.  Attaching, detaching, resetting and destroying instances, and
    interrupts firing in between, keep the registry consistent: after any
    such run from a system in which no instance is attached yet, or from
    any consistent system, every attached instance has a slot index below 4
    whose occupancy bit is set and whose table entry points back at that
    instance, and the table keeps its four entries. *)
Theorem registry_stays_consistent (fuel : nat) (ops : list sys_op) (s s' : system) :
  registry_ok s
  \/ (length (myInstance (statics s)) = 4%nat
      /\ forall this o, objs s !! this = Some o -> isInterruptMode o = false) ->
  sys_run fuel ops s = Some s' ->
  registry_ok s'.
Proof.
  intros [Hok | [Hlen Hnone]] Hrun.
  - exact (registry_ok_run fuel ops s s' Hok Hrun).
  - apply (registry_ok_run fuel ops s s'); [|exact Hrun].
    now apply registry_ok_unattached.
Qed.

Lemma registry_stays_consistent_witness :
  registry_ok five_scales
  /\ exists s',
       sys_run 0 [SysAttach 1; SysAttach 2; SysInterrupt globalISR1; SysDetach 1;
                  SysAttach 3; SysReset 2; SysAttach 4; SysDestroy 3]%positive five_scales
       = Some s'
       /\ registry_ok s'.
Proof.
  split; [exact five_scales_ok|].
  destruct (sys_run 0 [SysAttach 1; SysAttach 2; SysInterrupt globalISR1; SysDetach 1;
                       SysAttach 3; SysReset 2; SysAttach 4; SysDestroy 3]%positive
              five_scales) as [s'|] eqn:E.
  - exists s'. split; [reflexivity|].
    exact (registry_stays_consistent 0 _ five_scales s' (or_introl five_scales_ok) E).
  - vm_compute in E. discriminate.
Defined.

(** X9.  In a consistent system the interrupt of an attached instance
    reaches that instance and no other: the trampoline of its slot runs
    [readNB] on it, leaves every other instance and the registry as they
    are, and no two attached instances share a slot. *)
Theorem interrupt_reaches_its_instance (s : system) (this : addr) (o : MD_HX711) :
  registry_ok s -> objs s !! this = Some o -> isInterruptMode o = true ->
  exists f,
    ISRfunc !! Z.to_nat (_myISRId o) = Some f
    /\ run_isr f s
       = Some (mkSys (<[this := fst (readNB o (hw s))]> (objs s)) (statics s)
                     (snd (readNB o (hw s))))
    /\ (forall b ob, objs s !! b = Some ob -> isInterruptMode ob = true ->
                     _myISRId ob = _myISRId o -> b = this)
    /\ (forall b, b <> this ->
          <[this := fst (readNB o (hw s))]> (objs s) !! b = objs s !! b).
Proof.
  intros [Hlen Hok] Ho Hm.
  destruct (Hok this o Ho Hm) as (Hi & Hbit & Hl).
  destruct (ISRfunc_lookup (_myISRId o) Hi) as (f & Hf & Hslot).
  exists f. split; [exact Hf|]. split; [|split].
  - unfold run_isr. rewrite Hslot, Hl, Ho. now destruct (readNB o (hw s)).
  - intros b ob Hb Hmb Hid. destruct (Hok b ob Hb Hmb) as (_ & _ & Hlb).
    rewrite Hid in Hlb. congruence.
  - intros b Hne. now apply lookup_insert_ne.
Qed.

Lemma interrupt_reaches_its_instance_witness :
  exists s4 o,
    sys_run 0 [SysAttach 1; SysAttach 2; SysAttach 3; SysAttach 4]%positive five_scales
    = Some s4
    /\ registry_ok s4 /\ objs s4 !! 3%positive = Some o /\ isInterruptMode o = true
    /\ exists s5, run_isr globalISR2 s4 = Some s5
                  /\ getReadCount <$> objs s5 !! 3%positive = Some 1.
Proof.
  destruct (sys_run 0 [SysAttach 1; SysAttach 2; SysAttach 3; SysAttach 4]%positive
              five_scales) as [s4|] eqn:E; [|vm_compute in E; discriminate].
  assert (Hok : registry_ok s4) by exact (registry_ok_run 0 _ _ _ five_scales_ok E).
  vm_compute in E. inversion E; subst s4; clear E.
  eexists _, _. split; [reflexivity|]. split; [exact Hok|].
  split; [vm_compute; reflexivity|]. split; [reflexivity|].
  match type of Hok with registry_ok ?s =>
    destruct (interrupt_reaches_its_instance s 3%positive _ Hok
                ltac:(vm_compute; reflexivity) eq_refl) as (f & Hf & Hrun & _)
  end.
  vm_compute in Hf. inversion Hf; subst f; clear Hf.
  eexists. split; [exact Hrun|].
  cbn [objs]. rewrite lookup_insert_eq. cbn. rewrite readNB_state. reflexivity.
Defined.

(** ** [autoZeroTare] *)

Lemma tare_channels_step fuel n i o w :
  tare_channels fuel n i o w =
  if i <? NUM_CHAN then
    match tare_step fuel n o w with
    | Some r => tare_channels fuel n (i + 1) (fst r) (snd r)
    | None => None
    end
  else Some (o, w).
Proof.
  rewrite tare_channels_equation_1.
  destruct (Z_lt_dec i NUM_CHAN) as [H|H]; cbn.
  - rewrite (proj2 (Z.ltb_lt i NUM_CHAN) H). destruct (tare_step fuel n o w); reflexivity.
  - rewrite (proj2 (Z.ltb_nlt i NUM_CHAN) H). reflexivity.
Qed.

Lemma tare_passes_step fuel n o w :
  tare_passes fuel n o w =
  if n <? NUM_PASSES then
    match tare_channels fuel n 0 o w with
    | Some r => tare_passes fuel (n + 1) (fst r) (snd r)
    | None => None
    end
  else Some (o, w).
Proof.
  rewrite tare_passes_equation_1.
  destruct (Z_lt_dec n NUM_PASSES) as [H|H]; cbn.
  - rewrite (proj2 (Z.ltb_lt n NUM_PASSES) H).
    destruct (tare_channels fuel n 0 o w); reflexivity.
  - rewrite (proj2 (Z.ltb_nlt n NUM_PASSES) H). reflexivity.
Qed.

(** One pass: two reads, each followed by the tare of its channel. *)
Lemma tare_channels_two fuel n o w :
  tare_channels fuel n 0 o w =
  match tare_step fuel n o w with
  | Some r => tare_step fuel n (fst r) (snd r)
  | None => None
  end.
Proof.
  rewrite (tare_channels_step fuel n 0). change (0 <? NUM_CHAN) with true. cbv iota.
  destruct (tare_step fuel n o w) as [[o1 w1]|]; [|reflexivity]. cbn [fst snd].
  rewrite (tare_channels_step fuel n (0 + 1)). change (0 + 1 <? NUM_CHAN) with true.
  cbv iota. destruct (tare_step fuel n o1 w1) as [[o2 w2]|]; [|reflexivity].
  cbn [fst snd]. rewrite (tare_channels_step fuel n (0 + 1 + 1)). reflexivity.
Qed.

Lemma tare_passes_three fuel o w :
  tare_passes fuel 0 o w =
  match tare_channels fuel 0 0 o w with
  | Some r0 =>
      match tare_channels fuel 1 0 (fst r0) (snd r0) with
      | Some r1 => tare_channels fuel 2 0 (fst r1) (snd r1)
      | None => None
      end
  | None => None
  end.
Proof.
  rewrite (tare_passes_step fuel 0). change (0 <? NUM_PASSES) with true. cbv iota.
  destruct (tare_channels fuel 0 0 o w) as [[o1 w1]|]; [|reflexivity]. cbn [fst snd].
  rewrite (tare_passes_step fuel (0 + 1)). change (0 + 1 <? NUM_PASSES) with true.
  cbv iota. change (0 + 1) with 1.
  destruct (tare_channels fuel 1 0 o1 w1) as [[o2 w2]|]; [|reflexivity]. cbn [fst snd].
  rewrite (tare_passes_step fuel (1 + 1)). change (1 + 1 <? NUM_PASSES) with true.
  cbv iota. change (1 + 1) with 2.
  destruct (tare_channels fuel 2 0 o2 w2) as [[o3 w3]|]; [|reflexivity]. cbn [fst snd].
  rewrite (tare_passes_step fuel (2 + 1)). reflexivity.
Qed.

(** Setting a tare and reading commute: a read neither uses nor changes
    the tare. *)
Lemma readNB_setZeroTare t c o w :
  readNB (setZeroTare t c o) w = (setZeroTare t c (fst (readNB o w)), snd (readNB o w)).
Proof.
  pose proof (readNB_spec (setZeroTare t c o) w) as H1.
  pose proof (readNB_spec o w) as H2. cbv zeta in *. rewrite H1, H2. cbn [fst snd].
  unfold setZeroTare, set_chanData, toggled, readNB_events, pattern. cbn.
  destruct (_chanData o) as [[ra ta ca ga] [rb tb cb gb]].
  destruct c, (_enableB o && (if _enableB o then negb (_nextReadA o) else _nextReadA o));
    reflexivity.
Qed.

Lemma wait_ready_setZeroTare fuel t c o : forall w,
  wait_ready fuel (setZeroTare t c o) w = wait_ready fuel o w.
Proof.
  induction fuel as [|fuel IH]; intros w; cbn [wait_ready]; unfold isReady; cbn [_pinDat setZeroTare set_chanData];
    destruct (digitalRead (_pinDat o) w) as [d w1]; destruct (level_eqb d LOW);
    try reflexivity.
  apply IH.
Qed.

Lemma read_setZeroTare fuel t c o w :
  isInterruptMode o = false ->
  read fuel (setZeroTare t c o) w =
  match read fuel o w with
  | Some (ch, o1, w1) => Some (ch, setZeroTare t c o1, w1)
  | None => None
  end.
Proof.
  intros Hm. unfold read.
  change (isInterruptMode (setZeroTare t c o)) with (isInterruptMode o).
  rewrite Hm. cbn [negb]. rewrite wait_ready_setZeroTare.
  destruct (wait_ready fuel o w) as [w1|]; [|reflexivity].
  rewrite readNB_setZeroTare. destruct (readNB o w1) as [o1 w2]. reflexivity.
Qed.

(** What a polled [read] leaves behind. *)
Lemma read_polled_facts fuel o w ch a w' :
  isInterruptMode o = false -> read fuel o w = Some (ch, a, w') ->
  _enableB a = _enableB o /\ _nextReadA a = toggled o /\ isInterruptMode a = false
  /\ ch = read_channel a /\ - 2 ^ 23 <= getRaw ch a < 2 ^ 23.
Proof.
  intros Hm Hr.
  apply read_cases in Hr as [-> [(E & _) | (_ & w1 & _ & -> & _)]]; [congruence|].
  rewrite readNB_state. cbv zeta. unfold isInterruptMode in *.
  cbn [_enableB _nextReadA _myISRId].
  split; [reflexivity|]. split; [reflexivity|]. split; [assumption|].
  split; [reflexivity|].
  unfold getRaw, read_channel. cbn [_enableB _nextReadA _chanData].
  rewrite chan_get_set_same. cbn [raw].
  apply sign_extend_pattern_range.
Qed.

Lemma with_tares_id cx o :
  with_tares (getZeroTare cx o) (getZeroTare (other_channel cx) o) cx o = o.
Proof.
  unfold with_tares, setZeroTare, getZeroTare, set_chanData.
  destruct o as [pc pd eb md nx rc [[ra ta ca ga] [rb tb cb gb]] id isr].
  destruct cx; reflexivity.
Qed.

Lemma tare_step_with_tares fuel n tx ty cx a w :
  isInterruptMode a = false ->
  tare_step fuel n (with_tares tx ty cx a) w =
  match read fuel a w with
  | None => None
  | Some (ch, a1, w1) =>
      Some (match ch, cx with
            | CH_A, CH_A | CH_B, CH_B =>
                with_tares (tare_update n tx (getRaw ch a1)) ty cx a1
            | _, _ => with_tares tx (tare_update n ty (getRaw ch a1)) cx a1
            end, w1)
  end.
Proof.
  intros Hm. unfold tare_step, with_tares.
  rewrite read_setZeroTare by exact Hm. rewrite read_setZeroTare by exact Hm.
  destruct (read fuel a w) as [[[ch a1] w1]|]; [|reflexivity].
  unfold setZeroTare, set_chanData, getRaw.
  destruct a1 as [pc pd eb md nx rc [[ra ta ca ga] [rb tb cb gb]] id isr].
  destruct ch, cx; reflexivity.
Qed.

Lemma quot2_range (a : Z) : - 2 ^ 24 <= a < 2 ^ 24 -> - 2 ^ 23 <= Z.quot a 2 <= 2 ^ 23.
Proof.
  intros Ha. pose proof (Z.quot_rem' a 2) as Hq.
  pose proof (Z.rem_bound_abs a 2 ltac:(lia)) as Hr. lia.
Qed.

(** The three updates of one channel: the first reading drops out. *)
Lemma tare_update_three (t r0 r2 r4 : Z) :
  - 2 ^ 23 <= r2 < 2 ^ 23 -> - 2 ^ 23 <= r4 < 2 ^ 23 ->
  tare_update 2 (tare_update 1 (tare_update 0 t r0) r2) r4 = Z.quot (r2 + r4) 2.
Proof.
  intros H2 H4. unfold tare_update. cbn [Z.eqb]. change (1 - 1) with 0. change (2 - 1) with 1.
  rewrite Z.mul_0_r, Z.mul_1_r.
  change (to_int32 0) with 0. rewrite Z.add_0_l.
  assert (E2 : to_int32 r2 = r2)
    by (apply to_int32_small; unfold is_int32, INT32_MIN, INT32_MAX; lia).
  rewrite E2, Z.quot_1_r, !E2.
  rewrite (to_int32_small (r2 + r4)) by (unfold is_int32, INT32_MIN, INT32_MAX; lia).
  pose proof (quot2_range (r2 + r4) ltac:(lia)).
  apply to_int32_small. unfold is_int32, INT32_MIN, INT32_MAX. lia.
Qed.

(** One more read in the chain: case on its result and record what it
    leaves behind. *)
Ltac next_read a w Hm HB HA :=
  let c := fresh "c" in let a' := fresh "a" in let w' := fresh "w" in
  let R := fresh "R" in let Hm' := fresh "Hm" in let HB' := fresh "HB" in
  let HA' := fresh "HA" in let Hc := fresh "Hc" in let Hr := fresh "Hr" in
  rewrite (tare_step_with_tares _ _ _ _ _ a w Hm);
  destruct (read _ a w) as [[[c a'] w']|] eqn:R; [|reflexivity];
  destruct (read_polled_facts _ a w c a' w' Hm R) as (HB' & HA' & Hm' & Hc & Hr);
  unfold toggled in HA'; rewrite HB, HA in HA'; rewrite HB in HB'; cbn [negb] in HA';
  unfold read_channel in Hc; rewrite HB', HA' in Hc; cbn [andb] in Hc; subst c;
  cbn [fst snd].

Lemma tare_passes_with_tares fuel tx ty a w :
  isInterruptMode a = false -> _enableB a = true ->
  let cx := if _nextReadA a then CH_A else CH_B in
  let cy := other_channel cx in
  match reads 6 fuel a w with
  | None => tare_passes fuel 0 (with_tares tx ty cx a) w = None
  | Some (log, a6, w6) =>
      exists r0 r1 r2 r3 r4 r5,
        log = [(cx, r0); (cy, r1); (cx, r2); (cy, r3); (cx, r4); (cy, r5)]
        /\ tare_passes fuel 0 (with_tares tx ty cx a) w
           = Some (with_tares (Z.quot (r2 + r4) 2) (Z.quot (r3 + r5) 2) cx a6, w6)
  end.
Proof.
  intros Hm HB. cbv zeta. rewrite tare_passes_three, tare_channels_two. cbn [reads].
  destruct (_nextReadA a) eqn:HA; cbn [other_channel].
  - next_read a w Hm HB HA. next_read a0 w0 Hm0 HB0 HA0.
    rewrite tare_channels_two.
    next_read a1 w1 Hm1 HB1 HA1. next_read a2 w2 Hm2 HB2 HA2.
    rewrite tare_channels_two.
    next_read a3 w3 Hm3 HB3 HA3. next_read a4 w4 Hm4 HB4 HA4.
    eexists _, _, _, _, _, _. split; [reflexivity|].
    rewrite !tare_update_three by assumption. reflexivity.
  - next_read a w Hm HB HA. next_read a0 w0 Hm0 HB0 HA0.
    rewrite tare_channels_two.
    next_read a1 w1 Hm1 HB1 HA1. next_read a2 w2 Hm2 HB2 HA2.
    rewrite tare_channels_two.
    next_read a3 w3 Hm3 HB3 HA3. next_read a4 w4 Hm4 HB4 HA4.
    eexists _, _, _, _, _, _. split; [reflexivity|].
    rewrite !tare_update_three by assumption. reflexivity.
Qed.

(** X10.  In polled mode [autoZeroTare] makes exactly the six reads that
    six calls of [read] with Channel B enabled make, the channels
    alternating from the one the next-channel flag points at.  It returns
    when they do, puts the Channel B switch back, and leaves each channel
    with the mean, truncated towards zero, of its second and third reading:
    the first reading of each channel and the tare held before have no
    influence on the result. *)
Theorem autoZeroTare_averages_last_two
    (fuel : nat) (this : addr) (o : MD_HX711) (g : registry) (w : world) :
  isInterruptMode o = false ->
  let cx := if _nextReadA o then CH_A else CH_B in
  let cy := other_channel cx in
  match reads 6 fuel (enableChannelB true o) w with
  | None => autoZeroTare fuel this o g w = None
  | Some (log, o6, w6) =>
      exists r0 r1 r2 r3 r4 r5,
        log = [(cx, r0); (cy, r1); (cx, r2); (cy, r3); (cx, r4); (cy, r5)]
        /\ autoZeroTare fuel this o g w
           = Some (enableChannelB (_enableB o)
                     (setZeroTare (Z.quot (r3 + r5) 2) cy
                        (setZeroTare (Z.quot (r2 + r4) 2) cx o6)), g, w6)
  end.
Proof.
  intros Hm. cbv zeta. unfold autoZeroTare. rewrite Hm.
  set (oE := enableChannelB true o).
  set (cx := if _nextReadA o then CH_A else CH_B).
  pose proof (tare_passes_with_tares fuel (getZeroTare cx oE)
                (getZeroTare (other_channel cx) oE) oE w Hm eq_refl) as H.
  cbv zeta in H. change (_nextReadA oE) with (_nextReadA o) in H. fold cx in H.
  rewrite with_tares_id in H.
  destruct (reads 6 fuel oE w) as [[[log o6] w6]|].
  - destruct H as (r0 & r1 & r2 & r3 & r4 & r5 & Hlog & Hp).
    exists r0, r1, r2, r3, r4, r5. split; [exact Hlog|]. rewrite Hp. reflexivity.
  - rewrite H. reflexivity.
Qed.

Lemma readNB_closed_eq o w : readNB o w = readNB_closed o w.
Proof. exact (readNB_spec o w). Qed.

(** A polled [read] that finds DAT low at once. *)
Lemma read_low fuel o w :
  isInterruptMode o = false -> dat_in w (_pinDat o) (nreads w) = LOW ->
  let w0 := after_events w 1 (polls (_pinDat o) 0) in
  read fuel o w =
  Some (read_channel (fst (readNB_closed o w0)), fst (readNB_closed o w0),
        snd (readNB_closed o w0)).
Proof.
  intros Hm Hlow. cbv zeta. unfold read. rewrite Hm. cbn [negb].
  rewrite (wait_ready_low 0 fuel o w); [| lia | intros j Hj; lia
                                        | now rewrite Nat.add_0_r ].
  rewrite readNB_closed_eq. now destruct (readNB_closed o _).
Qed.

Lemma autoZeroTare_averages_last_two_witness :
  isInterruptMode (set_nextReadA true demo_scale) = false
  /\ exists o' w',
       autoZeroTare 0 1%positive (set_nextReadA true demo_scale) registry_init
         tare_demo_world = Some (o', registry_init, w')
       /\ getZeroTare CH_A o' = 105 /\ getZeroTare CH_B o' = 200.
Proof.
  split; [reflexivity|].
  pose proof (autoZeroTare_averages_last_two 0 1%positive (set_nextReadA true demo_scale)
                registry_init tare_demo_world eq_refl) as H.
  cbv zeta in H.
  assert (E : exists o6 w6,
            reads 6 0 (enableChannelB true (set_nextReadA true demo_scale)) tare_demo_world
            = Some ([(CH_A, 90); (CH_B, 200); (CH_A, 100); (CH_B, 200);
                     (CH_A, 110); (CH_B, 200)], o6, w6)).
  { cbn [reads].
    do 6 (rewrite read_low by (vm_compute; reflexivity); cbv zeta).
    eexists _, _. vm_compute. reflexivity. }
  destruct E as (o6 & w6 & E). rewrite E in H.
  destruct H as (r0 & r1 & r2 & r3 & r4 & r5 & Hlog & Ha).
  inversion Hlog; subst r0 r1 r2 r3 r4 r5; clear Hlog.
  eexists _, _. split; [exact Ha|]. split; reflexivity.
Defined.

(** ** [autoZeroTare] on an attached instance *)








(** ** The idle level of the clock *)

Lemma emitted_same w : emitted w w = [].
Proof. unfold emitted. apply drop_all. Qed.

Lemma clk_after_app clk e1 e2 init :
  clk_after clk (e1 ++ e2) init = clk_after clk e2 (clk_after clk e1 init).
Proof. unfold clk_after. apply fold_left_app. Qed.

Lemma clk_after_power_cycle clk init : clk_after clk (power_cycle clk) init = LOW.
Proof. unfold clk_after, power_cycle. cbn. now rewrite Z.eqb_refl. Qed.

Lemma clk_after_readNB_events o w e init :
  1 <= e -> clk_after (_pinClk o) (readNB_events o w e) init = LOW.
Proof.
  intros He. unfold readNB_events, exchange.
  replace (Z.to_nat e) with (S (Z.to_nat (e - 1))) by lia.
  rewrite replicate_S_end, concat_app. cbn [concat]. rewrite app_nil_r.
  rewrite !clk_after_app. unfold clk_after at 1 2. cbn. now rewrite Z.eqb_refl.
Qed.

(** X12.  The driver never leaves the clock high, which would power the
    device down: whatever the level of CLK before, the last level written
    to it by a [readNB], by a [reset] and by a successful
    [enableInterruptMode(true)] is low; detaching and a refused attach do
    not write to CLK at all. *)
Theorem clock_is_left_low (o : MD_HX711) (g : registry) (w : world) (init : level) :
  clk_after (_pinClk o) (emitted w (snd (readNB o w))) init = LOW
  /\ (forall fuel o' g' w',
        reset fuel o g w = Some (o', g', w') ->
        clk_after (_pinClk o) (emitted w w') init = LOW)
  /\ (forall fuel this b o' g' w',
        enableInterruptMode fuel this true o g w = Some (b, o', g', w') ->
        clk_after (_pinClk o) (emitted w w') init = if b then LOW else init)
  /\ (forall fuel this b o' g' w',
        enableInterruptMode fuel this false o g w = Some (b, o', g', w') ->
        clk_after (_pinClk o) (emitted w w') init = init).
Proof.
  split; [|split; [|split]].
  - rewrite readNB_closed_eq. cbn [snd readNB_closed]. rewrite emitted_after_events.
    apply clk_after_readNB_events. destruct (toggled o), (_mode o); cbn; lia.
  - intros fuel o' g' w' H. unfold reset in H.
    set (o1 := setGainA GAIN_128 (enableChannelB false o)) in *.
    assert (Hw1 : powerUp o (powerDown o w) = after_events w 0 (power_cycle (_pinClk o))).
    { unfold powerUp, powerDown, digitalWrite, delayMicroseconds, emit, after_events,
        power_cycle. cbn. rewrite <- !app_assoc. reflexivity. }
    rewrite Hw1 in H.
    destruct (disableISR_cases fuel o1 g (after_events w 0 (power_cycle (_pinClk o))))
      as [[_ E] | [(_ & _ & E) | (_ & _ & E)]]; rewrite E in H; try discriminate;
      inversion H; subst; rewrite ?after_events_compose, emitted_after_events.
    + apply clk_after_power_cycle.
    + rewrite clk_after_app, clk_after_power_cycle. reflexivity.
  - intros fuel this b o' g' w' H. unfold enableInterruptMode in H.
    destruct (enableISR_cases this o g w) as
      [[_ E] | [(_ & _ & E) | [(_ & _ & _ & E)
        | (_ & _ & i & f & _ & _ & _ & _ & _ & E)]]];
      rewrite E in H; inversion H; subst.
    1-3: rewrite emitted_same; reflexivity.
    rewrite emitted_after_events.
    change (EvAttachInterrupt ?a f TRIG_LOW :: ?l)
      with ([EvAttachInterrupt a f TRIG_LOW] ++ l).
    unfold clk_after. cbn. now rewrite Z.eqb_refl.
  - intros fuel this b o' g' w' H. unfold enableInterruptMode in H.
    destruct (disableISR_cases fuel o g w) as [[_ E] | [(_ & _ & E) | (_ & _ & E)]];
      rewrite E in H; try discriminate; inversion H; subst.
    + rewrite emitted_same. reflexivity.
    + rewrite emitted_after_events. reflexivity.
Qed.
